(** * Invoice query service ([main.py]): a shallow embedding

    The service is one FastAPI module.  It forwards a question to a
    LangChain SQL agent, keeps a singleton database connection alive from a
    background scheduler, and turns orchestration failures into a fixed
    HTTP 500.  Everything the module calls but does not define (the database,
    the LLM client, the agent framework) is an external collaborator: it is
    a field of the class [Collaborators] below, and every theorem holds for
    all of its instances.

    Python statements become computations in [M]: a state and exception
    monad over the process state [World] that also emits the chronological
    list of observable actions of the run (calls to collaborators with their
    outcome, and log records).  Line numbers refer to [main.py]. *)

From Stdlib Require Import String Ascii ZArith List Lia Bool.
From stdpp Require Import base gmap strings list.
Import ListNotations.

Local Open Scope Z_scope.

(** ** Python values *)

(** Instances of Python's [Exception]: what [except Exception] catches. *)
Inductive Exception : Type :=
| HTTPException (status_code : Z) (detail : string)
| KeyError (key : string)
| OtherException (cls : string) (message : string).

(** Everything that can be raised.  [NonException] stands for the
    interpreter-level signals that derive from [BaseException] only
    ([KeyboardInterrupt], [SystemExit], [GeneratorExit],
    [asyncio.CancelledError]); [except Exception] lets them through. *)
Inductive BaseException : Type :=
| Exc (e : Exception)
| NonException (cls : string).

Inductive outcome (A : Type) : Type :=
| Return (a : A)
| Raise (b : BaseException).
Arguments Return {A} a.
Arguments Raise {A} b.

(** [database.SingletonSQLDatabase]'s connection object.  Python compares
    objects by identity; [db_id] is the serial number of the constructed
    object. *)
Record SQLDatabase : Type := { db_id : nat }.

(** [ChatOpenAI(...)], by its keyword arguments. *)
Record ChatOpenAI : Type := {
  model : string;
  temperature : Z;
  streaming : bool;
  verbose : bool;
  openai_api_key_arg : option string
}.

(** [SQLDatabaseToolkit(llm=..., db=...)]. *)
Record SQLDatabaseToolkit : Type := { tk_llm : ChatOpenAI; tk_db : SQLDatabase }.

(** The members of [messages]. *)
Inductive Message : Type :=
| SystemMessage (content : string)
| HumanMessage (content : string)
| AIMessage (content : string)
| MessagesPlaceholder (variable_name : string).

(** [ChatPromptTemplate.from_messages(messages)]: message objects are kept
    as they are; only templates and placeholders are formatted later. *)
Record ChatPromptTemplate : Type := from_messages { messages : list Message }.

(** [create_sql_agent(llm, db=..., agent_type=..., verbose=..., prompt=...)],
    by its arguments. *)
Record AgentExecutor : Type := {
  ae_llm : ChatOpenAI;
  ae_db : SQLDatabase;
  ae_agent_type : string;
  ae_verbose : bool;
  ae_prompt : ChatPromptTemplate
}.

(** The levels of Python's [logging], with their numbers. *)
Inductive level : Type := DEBUG | INFO | WARNING | ERROR | CRITICAL.

Definition levelno (l : level) : Z :=
  match l with
  | DEBUG => 10
  | INFO => 20
  | WARNING => 30
  | ERROR => 40
  | CRITICAL => 50
  end.

(** [main.py] calls the module-level functions of [logging] and never
    configures it ([basicConfig], [setLevel] and the like do not occur in
    the module): the root logger keeps its default level. *)
Definition root_level : level := WARNING.

(** [logging.root.isEnabledFor(l)]: a call below the logger's level creates
    no record. *)
Definition isEnabledFor (l : level) : bool := levelno root_level <=? levelno l.

(** A record the root logger created; [exc_info] is the exception being
    handled when [exc_info=True] was passed. *)
Record LogRecord : Type := {
  levelname : level;
  msg : string;
  exc_info : option BaseException
}.

(** Observable actions, in the order they happen. *)
Inductive event : Type :=
| Ev_connect (r : outcome unit)
| Ev_run (db : SQLDatabase) (command : string) (r : outcome string)
| Ev_ChatOpenAI (llm : ChatOpenAI) (r : outcome unit)
| Ev_SQLDatabaseToolkit (tk : SQLDatabaseToolkit) (r : outcome unit)
| Ev_dialect (tk : SQLDatabaseToolkit) (r : outcome string)
| Ev_create_sql_agent (ae : AgentExecutor) (r : outcome unit)
| Ev_invoke (ae : AgentExecutor) (input : string) (r : outcome (gmap string string))
| Ev_log (rec : LogRecord).

(** ** External collaborators *)

(** What [main.py] imports and calls.  [ext] is the state of the outside
    world (database server, LLM service); each call may change it and either
    returns or raises.  [ModelInput] is the request model of
    [custom_datatypes]. *)
Class Collaborators (ext ModelInput : Type) : Type := {
  (** Python's [str()] on a [custom_datatypes.ModelInput]. *)
  ModelInput_str : ModelInput -> string;
  (** [os.getenv] of the API key, read once at import. *)
  openai_api_key : option string;
  (** Opening the database connection (inside [database.py]). *)
  connect : ext -> outcome unit * ext;
  (** [db.run(command)]. *)
  SQLDatabase_run : SQLDatabase -> string -> ext -> outcome string * ext;
  ChatOpenAI_init : ChatOpenAI -> ext -> outcome unit * ext;
  SQLDatabaseToolkit_init : SQLDatabaseToolkit -> ext -> outcome unit * ext;
  (** The property [toolkit.dialect]. *)
  SQLDatabaseToolkit_dialect : SQLDatabaseToolkit -> ext -> outcome string * ext;
  create_sql_agent_init : AgentExecutor -> ext -> outcome unit * ext;
  (** [agent_executor.invoke(input)]: the agent's result dictionary. *)
  AgentExecutor_invoke : AgentExecutor -> string -> ext -> outcome (gmap string string) * ext
}.

(** ** Strings *)

(** Python [str] values are kept as their UTF-8 bytes; the instruction
    blocks below are byte for byte the triple-quoted literals of the
    source, newlines and indentation included. *)

(** The double quote character, for the quoted examples of the prompt. *)
Definition dq : string := String (Ascii false true false false false true false false) EmptyString.

(** [starts_with p s]: Python's [s.startswith(p)]. *)
Fixpoint starts_with (p s : string) : bool :=
  match p, s with
  | EmptyString, _ => true
  | String a p', String b s' => if Ascii.eqb a b then starts_with p' s' else false
  | String _ _, EmptyString => false
  end.

(** [contains needle s]: Python's [needle in s]. *)
Fixpoint contains (needle s : string) : bool :=
  starts_with needle s ||
  match s with
  | EmptyString => false
  | String _ s' => contains needle s'
  end.


(** [column_metadata] of [handle_query] (a local that no later statement reads). *)
Definition column_metadata : string :=
"

        **Description:**
        This table contains cleansed and structured item data for equipment and parts used in various systems. It provides detailed information on item descriptions, specifications, manufacturer details, and unique identifiers to ensure accurate item tracking and data integrity.

        **Columns Metadata:**

        - **vessel_id**: Unique identifier for the vessel.
        - **vessel_object_id**: Internal object identifier for the vessel in the system.
        - **Vessel_Name**: Name of the vessel associated with the purchase order or invoice.
        - **Invoice_Id**: Unique identifier for the invoice.
        - **Inv_Title**: Title or description of the invoice.
        - **Inv_Code**: Unique code assigned to the invoice.
        - **VENDOR_INVOICE_DATE**: Date the vendor issued the invoice.
        - **INVOICE_CURRENCY_ID**: Unique identifier for the currency used in the invoice.
        - **Invoice_Currency_Name**: Name of the currency used in the invoice (e.g., US Dollar, Euro).
        - **Invoice_Currency_Code**: ISO currency code (e.g., USD, EUR) for the invoice.
        - **EXG_RATE_VESSEL_CURRENCY**: Exchange rate to convert the invoice currency into the vessel's operating currency.
        - **EXG_RATE_GROUP_CURRENCY**: Exchange rate to convert the invoice currency into the group's base currency.
        - **REGISTRATION_DATE**: Date the invoice was registered in the system.
        - **inv_approval_flag**: Indicates if the invoice has been approved (1 for approved, 0 for pending).
        - **CASH_PO_INVOICE**: Indicates if the invoice is linked to a cash-based purchase order.
        - **VENDOR_INVOICE_NO**: Unique number assigned to the invoice by the vendor.
        - **PARTIAL_INVOICE**: Indicates if the invoice is a partial payment or installment (1 for partial).
        - **PAID_ADV**: Amount of advance payment made against the invoice.
        - **INVOICE_TYPE**: Type of invoice (e.g., Regular, Credit, Debit).
        - **VAT_AMOUNT**: Value-added tax applied to the invoice.
        - **INVOICE_AMOUNT**: Total amount of the invoice.
        - **CASH_DISCOUNT**: Discount applied for early payment in cash.
        - **PAY_DUE_DATE**: Due date for payment of the invoice.
        - **INVOICE_YEAR**: Year the invoice was issued.
        - **PAYMENT_DATE**: Date the invoice was paid.
        - **Inv_Dt_Id**: Unique identifier for the invoice date.
        - **Inv_Effective_Date**: Date when the invoice became effective (e.g., for accounting purposes).
        - **Inv_Closed_Date**: Date the invoice was marked as closed.
        - **total_invoice_currency**: Total invoice amount in the original invoice currency.
        - **po_hd_Id**: Unique identifier for the purchase order header.
        - **po_code**: Code for the purchase order.
        - **created_date**: Date the purchase order was created.
        - **po_dt_id**: Unique identifier for the purchase order details.
        - **po_id**: Unique identifier for the purchase order.
        - **po_quantity**: Quantity of items in the purchase order.
        - **po_unit_price**: Unit price of items in the purchase order.
        - **po_account_id**: Account identifier for the purchase order.
        - **effective_date**: Effective date of the purchase order.
        - **closed_date**: Date the purchase order was marked as closed.
        - **lead_days**: Lead time in days for the purchase order.
        - **requisition_dt_id**: Unique identifier for the requisition details.
        - **enquiry_dt_id**: Unique identifier for the enquiry details.
        - **quote_dt_id**: Unique identifier for the quote details.
        - **approved_quote_dt_id**: Unique identifier for the approved quote details.
        - **approval_list_id**: Unique identifier for the approval list.
        - **sp_goods_receipt_id**: Unique identifier for the goods receipt note.
        - **sp_goods_receipt_hd_code**: Header code for the goods receipt note.
        - **grn_receipt_date**: Date the goods receipt was created.
        - **grn_receipt_status**: Status of the goods receipt (e.g., Pending, Approved).
        - **vendor_delivery_reference**: Vendor’s reference for the delivery associated with the invoice.
        - **grn_remarks**: Remarks or notes about the goods receipt.
        - **send_to_office**: Indicates whether the goods receipt is sent to the office.
        - **goods_rcvd_approved_date**: Date the received goods were approved.
        - **sp_goods_receipt_dt_id**: Unique identifier for the goods receipt date.
        - **item_id**: Unique identifier for the item being purchased or invoiced.
        - **uom_id**: Unit of measure for the item (e.g., KG, LTR, PCS).
        - **received_qty**: Quantity of goods received from the vendor.
        - **accepted_qty**: Quantity of goods accepted after inspection.
        - **converted_stock_qty**: Quantity of goods added to inventory after conversion or repackaging.
        - **normal_qty**: Standard quantity for the item in inventory.
        - **reconditioned_qty**: Quantity of goods reconditioned for use.
        - **port_id**: Unique identifier for the port.
        - **port_name**: Name of the port.
        - **port_code**: Code representing the port (e.g., for internal or system use).
        - **port_unloccode**: UN/LOCODE for the port, used for international trade and transport.
        - **ai_port_unloc_id**: AI-enhanced identifier combining the UN/LOCODE with system-specific details.
        - **QUANTITY**: Quantity of the item involved in the transaction.
        - **UNIT_PRICE**: Unit price of the item involved in the transaction.
        - **ACCOUNT_ID**: Identifier for the account linked to the transaction.
        - **ENTITY_ID**: Unique identifier for the entity associated with the transaction.
        - **TOTAL_VESSEL_CURRENCY**: Total amount in the vessel's operating currency.
        - **TOTAL_PO_CURRENCY**: Total amount in the purchase order's currency.
        - **TOTAL_GROUP_CURRENCY**: Total amount in the group's base currency.
        - **Inv_Account_Code**: Code representing the account linked to the invoice.
        - **Inv_Account_Name**: Name of the account linked to the invoice.
        - **Vendor**: Name of the vendor associated with the invoice.
        - **Vendor_ID**: Unique identifier for the vendor.
        - **Account_Number**: Account number associated with the vendor.
        - **BANK_CODE**: Code of the bank where the vendor holds an account.
        - **SWIFT_CODE**: SWIFT code for the vendor's bank.
        - **IBAN**: IBAN (International Bank Account Number) for the vendor.

        ".

(** [Metadata_Groupings] of [handle_query] (a local that no later statement reads). *)
Definition Metadata_Groupings : string :=
"
        **Description:**
        This table contains cleansed and structured item data for equipment and parts used in various systems. It provides detailed information on item descriptions, specifications, manufacturer details, and unique identifiers to ensure accurate item tracking and data integrity.

        **Columns Metadata:**

        ### Metadata Groupings

        #### Invoice Details:
        - **Invoice_Id**: Unique identifier for the invoice.
        - **Inv_Title**: Title or description of the invoice.
        - **Inv_Code**: Unique code assigned to the invoice.
        - **VENDOR_INVOICE_DATE**: Date the vendor issued the invoice.
        - **INVOICE_CURRENCY_ID**: Unique identifier for the currency used in the invoice.
        - **Invoice_Currency_Name**: Name of the currency used in the invoice (e.g., US Dollar, Euro).
        - **Invoice_Currency_Code**: ISO currency code (e.g., USD, EUR) for the invoice.
        - **EXG_RATE_VESSEL_CURRENCY**: Exchange rate to convert the invoice currency into the vessel's operating currency.
        - **EXG_RATE_GROUP_CURRENCY**: Exchange rate to convert the invoice currency into the group's base currency.
        - **REGISTRATION_DATE**: Date the invoice was registered in the system.
        - **inv_approval_flag**: Indicates if the invoice has been approved (1 for approved, 0 for pending).
        - **VENDOR_INVOICE_NO**: Unique number assigned to the invoice by the vendor.
        - **PARTIAL_INVOICE**: Indicates if the invoice is a partial payment or installment (1 for partial).
        - **PAID_ADV**: Amount of advance payment made against the invoice.
        - **INVOICE_TYPE**: Type of invoice (e.g., Regular, Credit, Debit).
        - **VAT_AMOUNT**: Value-added tax applied to the invoice.
        - **INVOICE_AMOUNT**: Total amount of the invoice.
        - **CASH_DISCOUNT**: Discount applied for early payment in cash.
        - **PAY_DUE_DATE**: Due date for payment of the invoice.
        - **INVOICE_YEAR**: Year the invoice was issued.
        - **PAYMENT_DATE**: Date the invoice was paid.
        - **Inv_Dt_Id**: Unique identifier for the invoice date.
        - **Inv_Effective_Date**: Date when the invoice became effective (e.g., for accounting purposes).
        - **Inv_Closed_Date**: Date the invoice was marked as closed.
        - **total_invoice_currency**: Total invoice amount in the original invoice currency.

        #### Purchase Order Details:
        - **po_hd_Id**: Unique identifier for the purchase order header.
        - **po_code**: Code for the purchase order.
        - **created_date**: Date the purchase order was created.
        - **po_dt_id**: Unique identifier for the purchase order details.
        - **po_id**: Unique identifier for the purchase order.
        - **po_quantity**: Quantity of items in the purchase order.
        - **po_unit_price**: Unit price of items in the purchase order.
        - **po_account_id**: Account identifier for the purchase order.
        - **effective_date**: Effective date of the purchase order.
        - **closed_date**: Date the purchase order was marked as closed.
        - **lead_days**: Lead time in days for the purchase order.

        #### Requisition and Approval Details:
        - **requisition_dt_id**: Unique identifier for the requisition details.
        - **enquiry_dt_id**: Unique identifier for the enquiry details.
        - **quote_dt_id**: Unique identifier for the quote details.
        - **approved_quote_dt_id**: Unique identifier for the approved quote details.
        - **approval_list_id**: Unique identifier for the approval list.

        #### Goods Receipt Note (GRN) Details:
        - **sp_goods_receipt_id**: Unique identifier for the goods receipt note.
        - **sp_goods_receipt_hd_code**: Header code for the goods receipt note.
        - **grn_receipt_date**: Date the goods receipt was created.
        - **grn_receipt_status**: Status of the goods receipt (e.g., Pending, Approved).
        - **vendor_delivery_reference**: Vendor’s reference for the delivery associated with the invoice.
        - **grn_remarks**: Remarks or notes about the goods receipt.
        - **send_to_office**: Indicates whether the goods receipt is sent to the office.
        - **goods_rcvd_approved_date**: Date the received goods were approved.
        - **sp_goods_receipt_dt_id**: Unique identifier for the goods receipt date.

        #### Item and Quantity Details:
        - **item_id**: Unique identifier for the item being purchased or invoiced.
        - **uom_id**: Unit of measure for the item (e.g., KG, LTR, PCS).
        - **received_qty**: Quantity of goods received from the vendor.
        - **accepted_qty**: Quantity of goods accepted after inspection.
        - **converted_stock_qty**: Quantity of goods added to inventory after conversion or repackaging.
        - **normal_qty**: Standard quantity for the item in inventory.
        - **reconditioned_qty**: Quantity of goods reconditioned for use.

        #### Port Details:
        - **port_id**: Unique identifier for the port.
        - **port_name**: Name of the port.
        - **port_code**: Code representing the port (e.g., for internal or system use).
        - **port_unloccode**: UN/LOCODE for the port, used for international trade and transport.
        - **ai_port_unloc_id**: AI-enhanced identifier combining the UN/LOCODE with system-specific details.

        #### Financial Details:
        - **QUANTITY**: Quantity of the item involved in the transaction.
        - **UNIT_PRICE**: Unit price of the item involved in the transaction.
        - **ACCOUNT_ID**: Identifier for the account linked to the transaction.
        - **ENTITY_ID**: Unique identifier for the entity associated with the transaction.
        - **TOTAL_VESSEL_CURRENCY**: Total amount in the vessel's operating currency.
        - **TOTAL_PO_CURRENCY**: Total amount in the purchase order's currency.
        - **TOTAL_GROUP_CURRENCY**: Total amount in the group's base currency.
        - **Inv_Account_Code**: Code representing the account linked to the invoice.
        - **Inv_Account_Name**: Name of the account linked to the invoice.

        #### Vendor Details:
        - **Vendor**: Name of the vendor associated with the invoice.
        - **Vendor_ID**: Unique identifier for the vendor.
        - **Account_Number**: Account number associated with the vendor.
        - **BANK_CODE**: Code of the bank where the vendor holds an account.
        - **SWIFT_CODE**: SWIFT code for the vendor's bank.
        - **IBAN**: IBAN (International Bank Account Number) for the vendor.

        ".

(** [prefix] of [handle_query]: the system instruction block, verbatim. *)
Definition prefix : string :=
"
        You are an advanced SQL database assistant specializing in answering user queries by interacting with the `Vw_Ai_Tbl_PO_PurchaseOrders_Invoices_Details` table in the `Common` schema.
        ### Handling General Queries:
        - If the query is a general greeting (e.g., " +:+
dq +:+
"Hi" +:+
dq +:+
", " +:+
dq +:+
"Hello" +:+
dq +:+
", " +:+
dq +:+
"How are you?" +:+
dq +:+
"), respond with a polite acknowledgment:
          - Example: " +:+
dq +:+
"Hello! How can I assist you today?" +:+
dq +:+
"
        - For unrelated or unclear questions, politely guide the user back to database-specific queries.
          - Example: " +:+
dq +:+
"I'm here to assist with database-related queries. How can I help?" +:+
dq +:+
"

        ### Responsibilities:
        1. Provide **precise** and **contextually relevant** answers strictly based on the specified table and schema.
        2. Ensure **query normalization and standardization** to deliver consistent and meaningful results for similar questions.
        3. Leverage response history to avoid redundant queries, optimizing efficiency and user satisfaction.
        
        ### Query Normalization Guidelines:
        - **Input Transformation**: 
        1.Convert all input text to lowercase for case-insensitive handling.
        2.Replace punctuation characters (e.g., -, _, ,, .) with spaces for better uniformity.
        3.Remove leading and trailing whitespaces; collapse multiple spaces into a single space.
        - **String Functions**:
        1.Use SQL string functions like `LOWER()`, `TRIM()`, `REPLACE()`, and fuzzy matching (`LIKE`, `LEVENSHTEIN()`, `SOUNDEX`) to account for minor spelling errors or variations.
        - **Case Mismatch Handling**:
        1.If the data in the database is stored in a specific case (e.g., uppercase), ensure that both the input and the database column are transformed to the same case during processing.
        - **For consistent matching**: 
        1.Normalize input to match the stored case (e.g., UPPER() for uppercase or LOWER() for lowercase).
        2.Apply the same transformation on both sides of the comparison.
        3.Use case-insensitive comparisons (e.g., ILIKE for PostgreSQL, collations in MySQL).
        ### SQL Query Construction:
        1. Ensure the query adheres to the **{dialect} dialect** syntax.
        2. Use **specific columns** in the SELECT clause for precision; avoid `SELECT *`.
        3. Apply **LIMIT {top_k}** unless the user explicitly specifies a different limit in their query. The value of `top_k` is dynamically set to **30** by default for this session, ensuring the response includes at most 30 results unless overridden by user input.
        - If no explicit limit is mentioned in the query, default to **LIMIT {top_k}**, where `top_k=30` for this session.
        - If the user explicitly specifies a `LIMIT` value, override the default `top_k` and use the user's provided value.
        - Ensure every SQL query includes a `LIMIT` clause, either with the default `top_k` or as explicitly stated by the user.
        - Priority for `LIMIT`:
          1. Explicit value provided by the user.
          2. Default value set to `top_k=30` for this session.
        4. Order results by **relevant columns** for clarity (e.g., `ApprovedDate DESC` for recent approvals).
        5. Validate query syntax before execution to ensure success and eliminate errors.
        6. Incorporate conditions for **filtering by user intent** and domain-specific logic (e.g., fetching purchase orders for a particular `VesselName` or `SMC`).
        7. When queried regarding **unique vendors**, the unique vendors are supposed to be calculated based on  **VENDOREMAIL**
        8. Use the **PO_USD_VALUE** column for the questions regarding the purchase.
        ### Rules of Engagement:
        - Do not perform Data Manipulation Language (DML) operations such as `INSERT`, `UPDATE`, or `DELETE`.
        - Use **Markdown format** for presenting results:
          - Include bordered tables for tabular data for better readability.
        - If the query is unrelated to the database or cannot be addressed, respond with:
          *" +:+
dq +:+
"I'm unable to provide an answer for that. This information is not available." +:+
dq +:+
"*
        - Handle ambiguous questions by:
          1. Politely clarifying the user's intent.
          2. Assuming the most logical interpretation when clarification isn't feasible.
        - **Tone and Style**:
          - Be professional, concise, and courteous in responses.
          - Avoid database-specific jargon unless directly relevant.
          - Use the following metadata {column_metadata} and {Metadata_Groupings}
        
        Your ultimate goal is to ensure clarity, accuracy, and user satisfaction while adhering strictly to data access and usage guidelines.


        ".

(** [suffix] of [handle_query]: the trailing instruction block, verbatim. *)
Definition suffix : string :=
"
        If asked about the database structure, table design, or unavailable data, respond politely:
        *" +:+
dq +:+
"I can answer questions from this database but cannot provide information about its structure or column names. Let me assist you with the data instead." +:+
dq +:+
"*
        
        ### Additional Guidelines:
        1. Always validate queries against user intent:
           - Prioritize **relevance and accuracy**.
           - Use domain-specific filtering for improved results (e.g., filtering by `pocategory_id` for purchase order categories).
        2. Incorporate prompt optimization techniques:
           - Break down **complex questions** into smaller SQL components to ensure accuracy.
           - Apply **logical conditions** (e.g., combining multiple filters using `AND` or `OR`) for precise results.
        3. Handle ambiguity:
           - Clarify the query if needed.
           - Make reasonable assumptions based on the schema and metadata.
        4. Optimize performance:
           - Use indexed columns in filtering conditions to speed up queries.
           - Aggregate results when large datasets are involved (e.g., using `SUM()`, `AVG()`, `GROUP BY`).
        
        5. Present answers effectively:
           - Use **Markdown** tables with proper column headers and alignments.
           - Provide **concise summaries** when large datasets are returned.

        6. For handling big result data:
           - The result is too large to display. Please refine your query or use filters to reduce the result size to show the `top ten` results only.

        ".

(** ** The process state and the monad of Python statements *)

Section Program.
Context {ext : Type}.

(** Process-wide state: the outside world, the class attribute
    [SingletonSQLDatabase._instance], and the number of connection objects
    constructed so far. *)
Record World : Type := {
  external : ext;
  _instance : option SQLDatabase;
  constructed : nat
}.

(** A statement: from a state to an outcome, the next state and the actions
    emitted meanwhile.  The state survives a raise, as in Python. *)
Definition M (A : Type) : Type := World -> outcome A * World * list event.

Definition ret {A : Type} (a : A) : M A := fun w => (Return a, w, []).

Definition raise {A : Type} (b : BaseException) : M A := fun w => (Raise b, w, []).

Definition bind {A B : Type} (m : M A) (k : A -> M B) : M B :=
  fun w =>
    match m w with
    | (Return a, w1, t1) =>
        match k a w1 with
        | (r, w2, t2) => (r, w2, t1 ++ t2)
        end
    | (Raise b, w1, t1) => (Raise b, w1, t1)
    end.

(** [try: body  except Exception as e: handler e].  A raise that is not an
    [Exception] instance passes through. *)
Definition try_except_Exception {A : Type} (body : M A) (handler : Exception -> M A) : M A :=
  fun w =>
    match body w with
    | (Raise (Exc e), w1, t1) =>
        match handler e w1 with
        | (r, w2, t2) => (r, w2, t1 ++ t2)
        end
    | other => other
    end.

(** A call to a collaborator: it acts on the outside world only, and the
    call and its outcome are emitted. *)
Definition call {A : Type} (f : ext -> outcome A * ext) (ev : outcome A -> event) : M A :=
  fun w =>
    match f (external w) with
    | (r, x) =>
        (r, {| external := x; _instance := _instance w; constructed := constructed w |}, [ev r])
    end.

(** [logging.info(m)]. *)
Definition logging_info (m : string) : M unit :=
  fun w =>
    (Return tt, w,
     if isEnabledFor INFO
     then [Ev_log {| levelname := INFO; msg := m; exc_info := None |}]
     else []).

(** [logging.error(m, exc_info=True)] inside the handler of [e]. *)
Definition logging_error (m : string) (e : Exception) : M unit :=
  fun w =>
    (Return tt, w,
     if isEnabledFor ERROR
     then [Ev_log {| levelname := ERROR; msg := m; exc_info := Some (Exc e) |}]
     else []).

(** [d[key]] on a dictionary: [KeyError] when the key is absent. *)
Definition getitem (d : gmap string string) (key : string) : M string :=
  match d !! key with
  | Some v => ret v
  | None => raise (Exc (KeyError key))
  end.

End Program.

Arguments World ext : clear implicits.
Arguments M ext A : clear implicits.

Declare Scope py_scope.
Delimit Scope py_scope with py.
Notation "x <- c1 ;; c2" := (bind c1 (fun x => c2))
  (at level 100, c1 at next level, right associativity) : py_scope.
Notation "c1 ;; c2" := (bind c1 (fun _ => c2))
  (at level 100, right associativity) : py_scope.
Local Open Scope py_scope.


(** ** The module [main.py] *)

Section Main.
Context {ext ModelInput : Type} {env : Collaborators ext ModelInput}.

(** Modelled from the spec: [database.py], which defines
    [SingletonSQLDatabase], is not among the sources.  Section 4.1 of the
    specification: [get_instance()] returns the process-wide connection,
    constructing it on first call and returning the same instance
    thereafter; if connection construction fails, every caller observes the
    failure until a successful construction occurs. *)
Definition get_instance : M ext SQLDatabase :=
  fun w =>
    match _instance w with
    | Some db => (Return db, w, [])
    | None =>
        match connect (external w) with
        | (Return _, x) =>
            let db := {| db_id := constructed w |} in
            (Return db,
             {| external := x; _instance := Some db; constructed := S (constructed w) |},
             [Ev_connect (Return tt)])
        | (Raise b, x) =>
            (Raise b,
             {| external := x; _instance := None; constructed := constructed w |},
             [Ev_connect (Raise b)])
        end
    end.

(** The [try] block of [keep_connection_alive], lines 31-33. *)
Definition keep_connection_alive_body : M ext unit :=
  db <- get_instance ;;
  call (SQLDatabase_run db "SELECT 1") (Ev_run db "SELECT 1") ;;
  logging_info "Database connection kept alive.".

(** [keep_connection_alive], lines 29-35. *)
Definition keep_connection_alive : M ext unit :=
  try_except_Exception
    keep_connection_alive_body
    (fun e => logging_error "Error in keep_connection_alive:" e).

(** [scheduler.add_job(func, trigger, seconds=...)]. *)
Record Job : Type := { func : M ext unit; trigger : string; seconds : Z }.

Definition add_job (f : M ext unit) (trig : string) (secs : Z) (jobs : list Job) : list Job :=
  jobs ++ [{| func := f; trigger := trig; seconds := secs |}].

(** [scheduler = BackgroundScheduler()] followed by the one [add_job] of
    line 41. *)
Definition scheduler : list Job :=
  add_job keep_connection_alive "interval" 999999 [].

(** The comment on line 40: "run every 10 seconds". *)
Definition documented_interval_seconds : Z := 10.

(** An interval trigger fires first one interval after the start, then
    every interval: the time of the [k]-th firing (from 0), in seconds
    after [scheduler.start()]. *)
Definition fire_time (j : Job) (k : nat) : Z := (Z.of_nat k + 1) * seconds j.

(** Number of firings of [j] within the first [t] seconds. *)
Definition runs_within (j : Job) (t : Z) : Z := t / seconds j.


(** [get_db_connection], lines 44-46. *)
Definition get_db_connection : M ext SQLDatabase :=
  db <- get_instance ;;
  ret db.

(** The messages list of lines 354-360, for the rendered question. *)
Definition conversation (question : string) : list Message :=
  [ SystemMessage prefix;
    HumanMessage question;
    AIMessage suffix;
    MessagesPlaceholder "agent_scratchpad" ].

(** The [try] block of [handle_query], lines 53-367. *)
Definition handle_query_body (userinput : ModelInput) (db : SQLDatabase)
  : M ext (gmap string string) :=
  let llm := {| model := "gpt-4o"; temperature := 0; streaming := true;
                verbose := false; openai_api_key_arg := openai_api_key |} in
  call (ChatOpenAI_init llm) (Ev_ChatOpenAI llm) ;;
  let toolkit := {| tk_llm := llm; tk_db := db |} in
  call (SQLDatabaseToolkit_init toolkit) (Ev_SQLDatabaseToolkit toolkit) ;;
  dialect <- call (SQLDatabaseToolkit_dialect toolkit) (Ev_dialect toolkit) ;;
  let top_k := 10 in
  let column_metadata := column_metadata in
  let Metadata_Groupings := Metadata_Groupings in
  let prefix := prefix in
  let suffix := suffix in
  (* HumanMessagePromptTemplate.from_template("{input}").format(input=userinput) *)
  let human_message := HumanMessage (ModelInput_str userinput) in
  let messages :=
    [ SystemMessage prefix;
      human_message;
      AIMessage suffix;
      MessagesPlaceholder "agent_scratchpad" ] in
  let prompt := from_messages messages in
  let agent_executor :=
    {| ae_llm := llm; ae_db := db; ae_agent_type := "openai-tools";
       ae_verbose := true; ae_prompt := prompt |} in
  call (create_sql_agent_init agent_executor) (Ev_create_sql_agent agent_executor) ;;
  let input := "Now answer this query: " +:+ ModelInput_str userinput in
  result <- call (AgentExecutor_invoke agent_executor input) (Ev_invoke agent_executor input) ;;
  response <- getitem result "output" ;;
  ret {[ "response" := response ]}.

(** [handle_query], lines 50-370. *)
Definition handle_query (userinput : ModelInput) (db : SQLDatabase)
  : M ext (gmap string string) :=
  try_except_Exception
    (handle_query_body userinput db)
    (fun e =>
       logging_error "Error handling query:" e ;;
       raise (Exc (HTTPException 500 "An error occurred while processing the request."))).

(** [POST /query/]: FastAPI resolves [Depends(get_db_connection)] and then
    calls the endpoint function with the result. *)
Definition POST_query (userinput : ModelInput) : M ext (gmap string string) :=
  db <- get_db_connection ;;
  handle_query userinput db.

(** [GET /], lines 373-375. *)
Definition read_root : gmap string string :=
  {[ "message" := "Welcome to my FastAPI app!" ]}.

End Main.

(** ** Reading a run *)

Section Runs.
Context {ext ModelInput : Type} {env : Collaborators ext ModelInput}.

Definition result_of {A : Type} (r : outcome A * World ext * list event) : outcome A := r.1.1.
Definition world_of {A : Type} (r : outcome A * World ext * list event) : World ext := r.1.2.
Definition events_of {A : Type} (r : outcome A * World ext * list event) : list event := r.2.

(** [respects P m]: [m] leaves the singleton alone and emits only actions
    that satisfy [P]. *)
Definition respects {A : Type} (P : event -> Prop) (m : M ext A) : Prop :=
  forall w,
    _instance (world_of (m w)) = _instance w /\
    constructed (world_of (m w)) = constructed w /\
    Forall P (events_of (m w)).

(** The prompts given to [create_sql_agent] during a run: the conversations
    handed to the SQL agent. *)
Fixpoint handed_to_agent (t : list event) : list ChatPromptTemplate :=
  match t with
  | [] => []
  | Ev_create_sql_agent ae _ :: t' => ae_prompt ae :: handed_to_agent t'
  | _ :: t' => handed_to_agent t'
  end.

(** The connection objects the run used, whoever used them. *)
Fixpoint connections_used (t : list event) : list SQLDatabase :=
  match t with
  | [] => []
  | Ev_run db _ _ :: t' => db :: connections_used t'
  | Ev_SQLDatabaseToolkit tk _ :: t' => tk_db tk :: connections_used t'
  | Ev_create_sql_agent ae _ :: t' => ae_db ae :: connections_used t'
  | Ev_invoke ae _ _ :: t' => ae_db ae :: connections_used t'
  | _ :: t' => connections_used t'
  end.

(** Connections opened successfully during a run. *)
Fixpoint connections_opened (t : list event) : nat :=
  match t with
  | [] => O
  | Ev_connect (Return _) :: t' => S (connections_opened t')
  | _ :: t' => connections_opened t'
  end.

(** The commands sent through [db.run]. *)
Fixpoint commands_run (t : list event) : list string :=
  match t with
  | [] => []
  | Ev_run _ command _ :: t' => command :: commands_run t'
  | _ :: t' => commands_run t'
  end.

(** The log records of a run. *)
Fixpoint log_of (t : list event) : list LogRecord :=
  match t with
  | [] => []
  | Ev_log rec :: t' => rec :: log_of t'
  | _ :: t' => log_of t'
  end.

(** What one call of [handle_query userinput db] may emit: the
    collaborator calls of its [try] block with exactly the arguments the
    source gives them, and the error record of its handler. *)
Definition orchestration_event (userinput : ModelInput) (db : SQLDatabase) (ev : event) : Prop :=
  let llm := {| model := "gpt-4o"; temperature := 0; streaming := true;
                verbose := false; openai_api_key_arg := openai_api_key |} in
  let toolkit := {| tk_llm := llm; tk_db := db |} in
  let agent_executor :=
    {| ae_llm := llm; ae_db := db; ae_agent_type := "openai-tools"; ae_verbose := true;
       ae_prompt := from_messages (conversation (ModelInput_str userinput)) |} in
  match ev with
  | Ev_connect _ => False
  | Ev_run _ _ _ => False
  | Ev_ChatOpenAI l _ => l = llm
  | Ev_SQLDatabaseToolkit tk _ => tk = toolkit
  | Ev_dialect tk _ => tk = toolkit
  | Ev_create_sql_agent ae _ => ae = agent_executor
  | Ev_invoke ae input _ =>
      ae = agent_executor /\ input = "Now answer this query: " +:+ ModelInput_str userinput
  | Ev_log rec => levelname rec = ERROR /\ msg rec = "Error handling query:"
  end.

(** What one firing of the keep-alive job may emit once it holds [db]. *)
Definition keep_alive_event (db : SQLDatabase) (ev : event) : Prop :=
  match ev with
  | Ev_run d command _ => d = db /\ command = "SELECT 1"
  | Ev_log rec =>
      (levelname rec = INFO /\ msg rec = "Database connection kept alive.") \/
      (levelname rec = ERROR /\ msg rec = "Error in keep_connection_alive:")
  | _ => False
  end.

(** The first connection object the accessor constructs. *)
Definition the_connection : SQLDatabase := {| db_id := O |}.

(** The singleton invariant: either nothing was constructed, or exactly one
    object was and [_instance] holds it. *)
Definition singleton_ok (w : World ext) : Prop :=
  match _instance w with
  | None => constructed w = O
  | Some db => db = the_connection /\ constructed w = 1%nat
  end.

(** A stretch of history from [w] to [w'] that keeps the singleton
    discipline: the invariant holds at the end, only the one connection was
    used, every object constructed was opened in the stretch, and nothing
    but the keep-alive ping went through [db.run]. *)
Definition step_ok (w w' : World ext) (t : list event) : Prop :=
  singleton_ok w' /\
  Forall (fun c => c = the_connection) (connections_used t) /\
  constructed w' = (constructed w + connections_opened t)%nat /\
  Forall (fun command => command = "SELECT 1") (commands_run t).

(** The process at import time: no connection yet. *)
Definition fresh_process (x : ext) : World ext :=
  {| external := x; _instance := None; constructed := O |}.

(** What can happen to a process once it runs: any caller of the
    accessor, a firing of the keep-alive job, a request. *)
Inductive operation : Type :=
| Op_get_instance
| Op_get_db_connection
| Op_keep_connection_alive
| Op_POST_query (userinput : ModelInput).

Definition perform (op : operation) (w : World ext) : World ext * list event :=
  match op with
  | Op_get_instance => (world_of (get_instance w), events_of (get_instance w))
  | Op_get_db_connection => (world_of (get_db_connection w), events_of (get_db_connection w))
  | Op_keep_connection_alive =>
      (world_of (keep_connection_alive w), events_of (keep_connection_alive w))
  | Op_POST_query userinput =>
      (world_of (POST_query userinput w), events_of (POST_query userinput w))
  end.

(** A history: operations one after the other, each run to completion. *)
Fixpoint perform_all (ops : list operation) (w : World ext) : World ext * list event :=
  match ops with
  | [] => (w, [])
  | op :: ops' =>
      match perform op w with
      | (w1, t1) =>
          match perform_all ops' w1 with
          | (w2, t2) => (w2, t1 ++ t2)
          end
      end
  end.

(** The same collaborators, except that [toolkit.dialect] behaves as
    [f]. *)
Definition set_dialect
    (f : SQLDatabaseToolkit -> ext -> outcome string * ext) : Collaborators ext ModelInput :=
  {| ModelInput_str := ModelInput_str;
     openai_api_key := openai_api_key;
     connect := connect;
     SQLDatabase_run := SQLDatabase_run;
     ChatOpenAI_init := ChatOpenAI_init;
     SQLDatabaseToolkit_init := SQLDatabaseToolkit_init;
     SQLDatabaseToolkit_dialect := f;
     create_sql_agent_init := create_sql_agent_init;
     AgentExecutor_invoke := AgentExecutor_invoke |}.


(** Lines of a text, each ended by a line feed. *)
Fixpoint count_lines (s : string) : nat :=
  match s with
  | EmptyString => O
  | String c s' =>
      ((if Ascii.eqb c (ascii_of_nat 10) then 1 else 0) + count_lines s')%nat
  end.

(** The data rows of an answer that is a Markdown table: its lines less the
    header and the rule under it. *)
Definition data_rows (out : string) : nat := (count_lines out - 2)%nat.

(** The row cap read as a guarantee about answers, in the words of section
    8 of the specification: whatever a request for [question] returns has at
    most [cap] rows. *)
Definition capped (question : ModelInput) (cap : nat) : Prop :=
  forall w out,
    result_of (POST_query question w) = Return {[ "response" := out ]} ->
    (data_rows out <= cap)%nat.

(** The exception an action ended with, if it raised. *)
Definition raised_by (ev : event) : option BaseException :=
  match ev with
  | Ev_connect (Raise b) => Some b
  | Ev_run _ _ (Raise b) => Some b
  | Ev_ChatOpenAI _ (Raise b) => Some b
  | Ev_SQLDatabaseToolkit _ (Raise b) => Some b
  | Ev_dialect _ (Raise b) => Some b
  | Ev_create_sql_agent _ (Raise b) => Some b
  | Ev_invoke _ _ (Raise b) => Some b
  | _ => None
  end.



(** Attempts to open a connection during a run, successful or not. *)
Fixpoint connection_attempts (t : list event) : nat :=
  match t with
  | [] => O
  | Ev_connect _ :: t' => S (connection_attempts t')
  | _ :: t' => connection_attempts t'
  end.

(** The objects [handle_query userinput db] builds, lines 54-64 and
    354-363. *)
Definition request_llm : ChatOpenAI :=
  {| model := "gpt-4o"; temperature := 0; streaming := true;
     verbose := false; openai_api_key_arg := openai_api_key |}.

Definition request_toolkit (db : SQLDatabase) : SQLDatabaseToolkit :=
  {| tk_llm := request_llm; tk_db := db |}.

Definition request_agent (userinput : ModelInput) (db : SQLDatabase) : AgentExecutor :=
  {| ae_llm := request_llm; ae_db := db; ae_agent_type := "openai-tools";
     ae_verbose := true;
     ae_prompt := from_messages (conversation (ModelInput_str userinput)) |}.

Definition request_input (userinput : ModelInput) : string :=
  "Now answer this query: " +:+ ModelInput_str userinput.

(** The four calls that precede the agent's [invoke], all returned. *)
Definition setup_calls (userinput : ModelInput) (db : SQLDatabase) (dialect : string)
  : list event :=
  [ Ev_ChatOpenAI request_llm (Return tt);
    Ev_SQLDatabaseToolkit (request_toolkit db) (Return tt);
    Ev_dialect (request_toolkit db) (Return dialect);
    Ev_create_sql_agent (request_agent userinput db) (Return tt) ].

(** The calls of the [try] block up to the first one that raises [b]. *)
Inductive stopped_at (userinput : ModelInput) (db : SQLDatabase) (b : BaseException)
  : list event -> Prop :=
| stop_ChatOpenAI :
    stopped_at userinput db b [Ev_ChatOpenAI request_llm (Raise b)]
| stop_SQLDatabaseToolkit :
    stopped_at userinput db b
      [ Ev_ChatOpenAI request_llm (Return tt);
        Ev_SQLDatabaseToolkit (request_toolkit db) (Raise b) ]
| stop_dialect :
    stopped_at userinput db b
      [ Ev_ChatOpenAI request_llm (Return tt);
        Ev_SQLDatabaseToolkit (request_toolkit db) (Return tt);
        Ev_dialect (request_toolkit db) (Raise b) ]
| stop_create_sql_agent (dialect : string) :
    stopped_at userinput db b
      [ Ev_ChatOpenAI request_llm (Return tt);
        Ev_SQLDatabaseToolkit (request_toolkit db) (Return tt);
        Ev_dialect (request_toolkit db) (Return dialect);
        Ev_create_sql_agent (request_agent userinput db) (Raise b) ]
| stop_invoke (dialect : string) :
    stopped_at userinput db b
      (setup_calls userinput db dialect ++
       [Ev_invoke (request_agent userinput db) (request_input userinput) (Raise b)]).

(** The record the handler of [handle_query] logs for [e]. *)
Definition query_error_record (e : Exception) : LogRecord :=
  {| levelname := ERROR; msg := "Error handling query:"; exc_info := Some (Exc e) |}.

(** The exception the handler of [handle_query] raises. *)
Definition generic_500 : Exception :=
  HTTPException 500 "An error occurred while processing the request.".

(** The ways a run of [handle_query userinput db] can go, as a relation
    between what it yields and what it emits. *)
Inductive handle_query_run (userinput : ModelInput) (db : SQLDatabase)
  : outcome (gmap string string) -> list event -> Prop :=
| run_answered (dialect : string) (result : gmap string string) (out : string) :
    result !! "output" = Some out ->
    handle_query_run userinput db
      (Return {[ "response" := out ]})
      (setup_calls userinput db dialect ++
       [Ev_invoke (request_agent userinput db) (request_input userinput) (Return result)])
| run_no_output (dialect : string) (result : gmap string string) :
    result !! "output" = None ->
    handle_query_run userinput db
      (Raise (Exc generic_500))
      (setup_calls userinput db dialect ++
       [ Ev_invoke (request_agent userinput db) (request_input userinput) (Return result);
         Ev_log (query_error_record (KeyError "output")) ])
| run_failed (e : Exception) (calls : list event) :
    stopped_at userinput db (Exc e) calls ->
    handle_query_run userinput db
      (Raise (Exc generic_500))
      (calls ++ [Ev_log (query_error_record e)])
| run_interrupted (cls : string) (calls : list event) :
    stopped_at userinput db (NonException cls) calls ->
    handle_query_run userinput db (Raise (NonException cls)) calls.

(** The records [keep_connection_alive] asks for.  The first one is below
    the root logger's level and is never created. *)
Definition kept_alive_record : LogRecord :=
  {| levelname := INFO; msg := "Database connection kept alive."; exc_info := None |}.

Definition keep_alive_error_record (e : Exception) : LogRecord :=
  {| levelname := ERROR; msg := "Error in keep_connection_alive:";
     exc_info := Some (Exc e) |}.

(** The ways a firing of [keep_connection_alive] can go.  [opening] is what
    the accessor emitted before returning: nothing when the connection
    existed, the successful opening otherwise. *)
Inductive keep_alive_run : outcome unit -> list event -> Prop :=
| ka_pinged (opening : list event) (db : SQLDatabase) (v : string) :
    opening = [] \/ opening = [Ev_connect (Return tt)] ->
    keep_alive_run (Return tt) (opening ++ [Ev_run db "SELECT 1" (Return v)])
| ka_ping_failed (opening : list event) (db : SQLDatabase) (e : Exception) :
    opening = [] \/ opening = [Ev_connect (Return tt)] ->
    keep_alive_run (Return tt)
      (opening ++ [Ev_run db "SELECT 1" (Raise (Exc e)); Ev_log (keep_alive_error_record e)])
| ka_ping_interrupted (opening : list event) (db : SQLDatabase) (cls : string) :
    opening = [] \/ opening = [Ev_connect (Return tt)] ->
    keep_alive_run (Raise (NonException cls))
      (opening ++ [Ev_run db "SELECT 1" (Raise (NonException cls))])
| ka_connect_failed (e : Exception) :
    keep_alive_run (Return tt)
      [Ev_connect (Raise (Exc e)); Ev_log (keep_alive_error_record e)]
| ka_connect_interrupted (cls : string) :
    keep_alive_run (Raise (NonException cls)) [Ev_connect (Raise (NonException cls))].

End Runs.

(** ** Threads *)

(** The keep-alive job runs on the scheduler's worker thread while requests
    are being handled, so the statements of different operations interleave.
    A thread is an operation cut into its actions: each call to a
    collaborator, each log call, and each call of the accessor.  The
    accessor is one action because section 4.1 of the specification gives
    it by its contract alone; what happens inside it is not part of this
    module.  After every action the thread goes on according to the
    outcome. *)

Section Threads.
Context {ext ModelInput : Type} {env : Collaborators ext ModelInput}.

Inductive thread (R : Type) : Type :=
| Done (r : outcome R)
| Atom {A : Type} (m : M ext A) (k : outcome A -> thread R).
Arguments Done {R} r.
Arguments Atom {R A} m k.

(** One action and nothing after it. *)
Definition atom {A : Type} (m : M ext A) : thread A := Atom m Done.

Definition tret {A : Type} (a : A) : thread A := Done (Return a).

Definition traise {A : Type} (b : BaseException) : thread A := Done (Raise b).

(** Sequencing, as [bind]. *)
Fixpoint tbind {A B : Type} (t : thread A) (k : A -> thread B) : thread B :=
  match t with
  | Done (Return a) => k a
  | Done (Raise b) => Done (Raise b)
  | Atom m c => Atom m (fun r => tbind (c r) k)
  end.

(** [try: t  except Exception as e: handler e], as [try_except_Exception]. *)
Fixpoint ttry {A : Type} (t : thread A) (handler : Exception -> thread A) : thread A :=
  match t with
  | Done (Raise (Exc e)) => handler e
  | Done r => Done r
  | Atom m c => Atom m (fun r => ttry (c r) handler)
  end.

(** A thread run to its end without interruption. *)
Fixpoint run {R : Type} (t : thread R) : M ext R :=
  match t with
  | Done r => fun w => (r, w, [])
  | Atom m k =>
      fun w =>
        match m w with
        | (r, w1, t1) =>
            match run (k r) w1 with
            | (r2, w2, t2) => (r2, w2, t1 ++ t2)
            end
        end
  end.

End Threads.

Arguments thread ext R : clear implicits.
Arguments Done {ext R} r.
Arguments Atom {ext R A} m k.

Declare Scope thread_scope.
Delimit Scope thread_scope with thread.
Notation "x <- c1 ;; c2" := (tbind c1 (fun x => c2))
  (at level 100, c1 at next level, right associativity) : thread_scope.
Notation "c1 ;; c2" := (tbind c1 (fun _ => c2))
  (at level 100, right associativity) : thread_scope.

Section ThreadsOfMain.
Context {ext ModelInput : Type} {env : Collaborators ext ModelInput}.

(** [keep_connection_alive], lines 29-35, action by action. *)
Definition keep_connection_alive_thread : thread ext unit :=
  ttry
    (db <- atom get_instance ;;
     atom (call (SQLDatabase_run db "SELECT 1") (Ev_run db "SELECT 1")) ;;
     atom (logging_info "Database connection kept alive."))%thread
    (fun e => atom (logging_error "Error in keep_connection_alive:" e)).

(** [get_db_connection], lines 44-46. *)
Definition get_db_connection_thread : thread ext SQLDatabase :=
  (db <- atom get_instance ;;
   tret db)%thread.

(** The [try] block of [handle_query], lines 53-367, action by action. *)
Definition handle_query_body_thread (userinput : ModelInput) (db : SQLDatabase)
  : thread ext (gmap string string) :=
  let llm := {| model := "gpt-4o"; temperature := 0; streaming := true;
                verbose := false; openai_api_key_arg := openai_api_key |} in
  (atom (call (ChatOpenAI_init llm) (Ev_ChatOpenAI llm)) ;;
   let toolkit := {| tk_llm := llm; tk_db := db |} in
   atom (call (SQLDatabaseToolkit_init toolkit) (Ev_SQLDatabaseToolkit toolkit)) ;;
   dialect <- atom (call (SQLDatabaseToolkit_dialect toolkit) (Ev_dialect toolkit)) ;;
   let top_k := 10 in
   let human_message := HumanMessage (ModelInput_str userinput) in
   let messages :=
     [ SystemMessage prefix;
       human_message;
       AIMessage suffix;
       MessagesPlaceholder "agent_scratchpad" ] in
   let prompt := from_messages messages in
   let agent_executor :=
     {| ae_llm := llm; ae_db := db; ae_agent_type := "openai-tools";
        ae_verbose := true; ae_prompt := prompt |} in
   atom (call (create_sql_agent_init agent_executor) (Ev_create_sql_agent agent_executor)) ;;
   let input := "Now answer this query: " +:+ ModelInput_str userinput in
   result <- atom (call (AgentExecutor_invoke agent_executor input)
                        (Ev_invoke agent_executor input)) ;;
   response <- atom (getitem result "output") ;;
   tret {[ "response" := response ]})%thread.

(** [handle_query], lines 50-370. *)
Definition handle_query_thread (userinput : ModelInput) (db : SQLDatabase)
  : thread ext (gmap string string) :=
  ttry
    (handle_query_body_thread userinput db)
    (fun e =>
       (atom (logging_error "Error handling query:" e) ;;
        traise (Exc (HTTPException 500 "An error occurred while processing the request.")))%thread).

(** [POST /query/]: the dependency, then the endpoint function. *)
Definition POST_query_thread (userinput : ModelInput) : thread ext (gmap string string) :=
  (db <- get_db_connection_thread ;;
   handle_query_thread userinput db)%thread.

(** A running thread, whatever the type of its result. *)
Inductive worker : Type :=
| Worker : forall {R : Type}, thread ext R -> worker.

(** The thread an operation starts. *)
Definition spawn (op : operation) : worker :=
  match op with
  | Op_get_instance => Worker (atom get_instance)
  | Op_get_db_connection => Worker get_db_connection_thread
  | Op_keep_connection_alive => Worker keep_connection_alive_thread
  | Op_POST_query userinput => Worker (POST_query_thread userinput)
  end.

(** The next action of a worker; a finished one stays as it is. *)
Definition step_worker (tk : worker) (w : World ext) : World ext * list event * worker :=
  match tk with
  | Worker (Done r) => (w, [], Worker (Done r))
  | Worker (Atom m k) =>
      match m w with
      | (r, w1, t1) => (w1, t1, Worker (k r))
      end
  end.

(** The workers of a process under a schedule: each entry names the worker
    that performs its next action; an entry that names none is skipped. *)
Fixpoint interleave (schedule : list nat) (w : World ext) (pool : list worker)
  : World ext * list event * list worker :=
  match schedule with
  | [] => (w, [], pool)
  | i :: schedule' =>
      match pool !! i with
      | None => interleave schedule' w pool
      | Some tk =>
          match step_worker tk w with
          | (w1, t1, tk') =>
              match interleave schedule' w1 (<[i := tk']> pool) with
              | (w2, t2, pool2) => (w2, t1 ++ t2, pool2)
              end
          end
      end
  end.

(** What a thread may still do with connections: only collaborator and log
    actions, and every connection they are given is [db]. *)
Definition client_event (db : SQLDatabase) (ev : event) : Prop :=
  match ev with
  | Ev_connect _ => False
  | Ev_run d _ _ => d = db
  | Ev_SQLDatabaseToolkit tk _ => tk_db tk = db
  | Ev_create_sql_agent ae _ => ae_db ae = db
  | Ev_invoke ae _ _ => ae_db ae = db
  | _ => True
  end.

Fixpoint client (db : SQLDatabase) {R : Type} (t : thread ext R) : Prop :=
  match t with
  | Done _ => True
  | Atom m k => respects (client_event db) m /\ forall r, client db (k r)
  end.

(** A thread that has not got its connection yet: in a state that keeps the
    singleton invariant its next action keeps it, uses no connection, and
    constructs only what it opens; afterwards the connection is in place
    and the rest works on it, or the rest uses no connection at all. *)
Definition entering {R : Type} (t : thread ext R) : Prop :=
  match t with
  | Done _ => False
  | Atom m k =>
      forall w,
        singleton_ok w ->
        singleton_ok (world_of (m w)) /\
        connections_used (events_of (m w)) = [] /\
        constructed (world_of (m w)) =
          (constructed w + connections_opened (events_of (m w)))%nat /\
        (_instance w = Some the_connection ->
         _instance (world_of (m w)) = Some the_connection) /\
        ((_instance (world_of (m w)) = Some the_connection /\
          client the_connection (k (result_of (m w)))) \/
         (forall db, client db (k (result_of (m w)))))
  end.

(** A worker in a process in state [w]: it has yet to get its connection, or
    it uses no connection, or the connection is in place and it works on
    it. *)
Definition worker_ok (w : World ext) (tk : worker) : Prop :=
  match tk with
  | Worker t =>
      entering t \/
      (forall db, client db t) \/
      (_instance w = Some the_connection /\ client the_connection t)
  end.

(** A stretch of an interleaved history from [w] to [w']: the invariant
    holds at the end, what was constructed was opened in the stretch, every
    connection used is the one object and is in [_instance] at the end, and
    a connection in place stays in place. *)
Definition stretch_ok (w w' : World ext) (t : list event) : Prop :=
  singleton_ok w' /\
  constructed w' = (constructed w + connections_opened t)%nat /\
  Forall (fun c => c = the_connection /\ _instance w' = Some the_connection)
         (connections_used t) /\
  (_instance w = Some the_connection -> _instance w' = Some the_connection).

End ThreadsOfMain.

(** ** Query normalization *)

Section Normalization.

(** The fixed set of punctuation characters. *)
Variable punctuation : ascii -> bool.

Definition is_upper (c : ascii) : bool :=
  ((65 <=? nat_of_ascii c) && (nat_of_ascii c <=? 90))%nat.

Definition lower (c : ascii) : ascii :=
  if is_upper c then ascii_of_nat (nat_of_ascii c + 32) else c.

(** Python's [string.whitespace]. *)
Definition is_space (c : ascii) : bool :=
  ((nat_of_ascii c =? 32) || ((9 <=? nat_of_ascii c) && (nat_of_ascii c <=? 13)))%nat.

Definition space : ascii := ascii_of_nat 32.

(** Steps 1 and 2 on one character. *)
Definition fold_char (c : ascii) : ascii :=
  if punctuation (lower c) then space else lower c.

(** Split at every whitespace character, empty fields included. *)
Fixpoint fields (s : list ascii) : list (list ascii) :=
  match s with
  | [] => [[]]
  | c :: s' =>
      if is_space c then [] :: fields s'
      else match fields s' with
           | w :: ws => (c :: w) :: ws
           | [] => [[c]]
           end
  end.

Definition nonempty (w : list ascii) : bool :=
  match w with [] => false | _ :: _ => true end.

(** Python's [s.split()]: the non-empty fields. *)
Definition split (s : list ascii) : list (list ascii) := List.filter nonempty (fields s).

(** Python's [" ".join(ws)]. *)
Fixpoint join (ws : list (list ascii)) : list ascii :=
  match ws with
  | [] => []
  | [w] => w
  | w :: ws' => w ++ space :: join ws'
  end.

(** A word of [split]: non-empty and free of whitespace. *)
Definition word (w : list ascii) : Prop :=
  nonempty w = true /\ Forall (fun c => is_space c = false) w.

(** Modelled from the spec: the source has no normalization function; the
    transformation is only described, in the guidelines of [prefix] (lines
    276-280) and in section 4.3 of the specification: case-fold all text,
    treat a fixed set of punctuation characters as a space, collapse runs of
    whitespace to one space and trim leading and trailing whitespace. *)
Definition normalize (s : string) : string :=
  string_of_list_ascii (join (split (List.map fold_char (list_ascii_of_string s)))).

End Normalization.

(** The punctuation characters the guidelines name: [-], [_], [,] and [.]. *)
Definition named_punctuation (c : ascii) : bool :=
  ((nat_of_ascii c =? 45) || (nat_of_ascii c =? 95) ||
   (nat_of_ascii c =? 44) || (nat_of_ascii c =? 46))%nat.

(** ** Test doubles *)

(** A scripted outside world.  Its state counts the connection attempts;
    the first [failing_connects] of them raise.  The request model is the
    question text, rendered the way pydantic renders a one-field model. *)
Section Doubles.
Variable failing_connects : nat.
Variable run_outcome : outcome string.
Variable llm_outcome : outcome unit.
Variable invoke_outcome : outcome (gmap string string).

Definition OperationalError : Exception :=
  OtherException "OperationalError" "could not connect to server".

Definition scripted : Collaborators nat string := {|
  ModelInput_str := fun q => "userinput='" +:+ q +:+ "'";
  openai_api_key := Some "sk-test";
  connect := fun n =>
    if (n <? failing_connects)%nat then (Raise (Exc OperationalError), S n)
    else (Return tt, S n);
  SQLDatabase_run := fun _ _ n => (run_outcome, n);
  ChatOpenAI_init := fun _ n => (llm_outcome, n);
  SQLDatabaseToolkit_init := fun _ n => (Return tt, n);
  SQLDatabaseToolkit_dialect := fun _ n => (Return "mssql", n);
  create_sql_agent_init := fun _ n => (Return tt, n);
  AgentExecutor_invoke := fun _ _ n => (invoke_outcome, n)
|}.

End Doubles.

(** Everything works; the agent answers with a Markdown table. *)
Definition healthy : Collaborators nat string :=
  scripted O (Return "[(1,)]") (Return tt)
    (Return {[ "input" := "Now answer this query: userinput='show me the top 5 vendors'";
               "output" := "| Vendor | Invoices |" ]}).

(** The agent fails with a message that names internals. *)
Definition agent_down : Collaborators nat string :=
  scripted O (Return "[(1,)]") (Return tt)
    (Raise (Exc (OtherException "ProgrammingError" "Invalid object name Common.Vw_Ai"))).

(** The agent returns a dictionary without the [output] key. *)
Definition agent_mute : Collaborators nat string :=
  scripted O (Return "[(1,)]") (Return tt) (Return {[ "input" := "q" ]}).

(** The LLM client is interrupted by a signal that is not an [Exception]. *)
Definition interrupted : Collaborators nat string :=
  scripted O (Return "[(1,)]") (Raise (NonException "KeyboardInterrupt")) (Return ∅).

(** The database refuses the first three connection attempts. *)
Definition db_down : Collaborators nat string :=
  scripted 3 (Return "[(1,)]") (Return tt) (Return {[ "output" := "42" ]}).

(** The LLM client refuses the API key. *)
Definition llm_rejected : Collaborators nat string :=
  scripted O (Return "[(1,)]")
    (Raise (Exc (OtherException "AuthenticationError" "Incorrect API key provided")))
    (Return ∅).

(** The connection opens, but the ping fails on it. *)
Definition ping_fails : Collaborators nat string :=
  scripted O
    (Raise (Exc (OtherException "OperationalError" "server closed the connection")))
    (Return tt) (Return {[ "output" := "42" ]}).

(** The line feed. *)
Definition nl : string := String (ascii_of_nat 10) EmptyString.

Fixpoint table_body (n : nat) : string :=
  match n with
  | O => EmptyString
  | S k => "| Acme Marine |" +:+ nl +:+ table_body k
  end.

(** A Markdown table with [n] data rows. *)
Definition markdown_table (n : nat) : string :=
  "| Vendor |" +:+ nl +:+ "|---|" +:+ nl +:+ table_body n.

(** The agent answers with 31 rows whatever it was told. *)
Definition agent_ignores_limit : Collaborators nat string :=
  scripted O (Return "[(1,)]") (Return tt) (Return {[ "output" := markdown_table 31 ]}).

(** A process that already holds its connection. *)
Definition connected : World nat :=
  {| external := 1%nat; _instance := Some the_connection; constructed := 1 |}.



(** * Properties *)

(** ** Strings *)

Lemma starts_with_spec (p s : string) :
  starts_with p s = true <-> exists rest, s = p +:+ rest.
Proof.
  revert s. induction p as [|a p IH]; intros s; simpl.
  - split; [intros _; exists s; reflexivity | reflexivity].
  - destruct s as [|b s].
    + split; [discriminate | intros [rest H]; discriminate].
    + destruct (Ascii.eqb_spec a b) as [->|Hne].
      * rewrite IH. split; intros [rest H]; exists rest.
        -- rewrite H. reflexivity.
        -- injection H as H. exact H.
      * split; [discriminate | intros [rest H]; injection H as H1 H2; congruence].
Qed.

(** [contains] decides the substring relation. *)
Lemma contains_spec (needle s : string) :
  contains needle s = true <-> exists before after, s = before +:+ needle +:+ after.
Proof.
  induction s as [|c s IH].
  - simpl. rewrite orb_false_r, starts_with_spec. split.
    + intros [rest H]. exists EmptyString, rest. exact H.
    + intros [[|b before] [after H]]; [exists after; exact H | discriminate].
  - cbn [contains]. rewrite orb_true_iff, starts_with_spec, IH. split.
    + intros [[rest H] | [before [after H]]].
      * exists EmptyString, rest. exact H.
      * exists (String c before), after. rewrite H. reflexivity.
    + intros [[|b before] [after H]].
      * left. exists after. exact H.
      * right. injection H as H1 H2. exists before, after. exact H2.
Qed.

(** ** The monad *)

Section MonadFacts.
Context {ext : Type}.

Lemma bind_Return_inv {A B : Type} (m : M ext A) (k : A -> M ext B) w b w2 t :
  bind m k w = (Return b, w2, t) ->
  exists a w1 t1 t2,
    m w = (Return a, w1, t1) /\ k a w1 = (Return b, w2, t2) /\ t = t1 ++ t2.
Proof.
  unfold bind. destruct (m w) as [[[a|e] w1] t1]; [|discriminate].
  destruct (k a w1) as [[r w2'] t2] eqn:Hk. intros H. injection H as Hr Hw Ht. subst r w2' t.
  exists a, w1, t1, t2. auto.
Qed.

Lemma bind_Return {A B : Type} (m : M ext A) (k : A -> M ext B) w a w1 t1 :
  m w = (Return a, w1, t1) ->
  bind m k w = ((k a w1).1.1, (k a w1).1.2, t1 ++ (k a w1).2).
Proof. unfold bind. intros ->. destruct (k a w1) as [[? ?] ?]. reflexivity. Qed.

Lemma bind_Raise {A B : Type} (m : M ext A) (k : A -> M ext B) w b w1 t1 :
  m w = (Raise b, w1, t1) -> bind m k w = (Raise b, w1, t1).
Proof. unfold bind. intros ->. reflexivity. Qed.

Lemma call_inv {A : Type} (f : ext -> outcome A * ext) (ev : outcome A -> event) w r w1 t :
  call f ev w = (r, w1, t) ->
  exists x,
    f (external w) = (r, x) /\
    w1 = {| external := x; _instance := _instance w; constructed := constructed w |} /\
    t = [ev r].
Proof.
  unfold call. destruct (f (external w)) as [r' x]. intros H. injection H as Hr Hw Ht. subst r' w1 t.
  exists x. auto.
Qed.

(** A handler that ends in [raise] never turns a failure into a result. *)
Lemma try_except_Return_inv {A : Type} (body : M ext A) (handler : Exception -> M ext A) w a w1 t :
  (forall e w', exists b, (handler e w').1.1 = Raise b) ->
  try_except_Exception body handler w = (Return a, w1, t) ->
  body w = (Return a, w1, t).
Proof.
  intros Hh. unfold try_except_Exception.
  destruct (body w) as [[[a'|[e|cls]] w'] t']; try (intros H; exact H).
  destruct (Hh e w') as [b Hb]. destruct (handler e w') as [[r w2] t2]. simpl in Hb.
  subst r. discriminate.
Qed.

Lemma try_bind_Return {A B : Type} (m : M ext A) (k : A -> M ext B)
      (handler : Exception -> M ext B) w a w1 t1 :
  m w = (Return a, w1, t1) ->
  try_except_Exception (bind m k) handler w =
    ((try_except_Exception (k a) handler w1).1.1,
     (try_except_Exception (k a) handler w1).1.2,
     t1 ++ (try_except_Exception (k a) handler w1).2).
Proof.
  intros Hm. unfold try_except_Exception. rewrite (bind_Return _ _ _ _ _ _ Hm).
  destruct (k a w1) as [[[b|[e|cls]] w2] t2]; cbn; try reflexivity.
  destruct (handler e w2) as [[r w3] t3]. cbn. rewrite app_assoc. reflexivity.
Qed.

Lemma try_bind_Raise {A B : Type} (m : M ext A) (k : A -> M ext B)
      (handler : Exception -> M ext B) w e w1 t1 :
  m w = (Raise (Exc e), w1, t1) ->
  try_except_Exception (bind m k) handler w =
    ((handler e w1).1.1, (handler e w1).1.2, t1 ++ (handler e w1).2).
Proof.
  intros Hm. unfold try_except_Exception. rewrite (bind_Raise _ _ _ _ _ _ Hm).
  destruct (handler e w1) as [[r w3] t3]. reflexivity.
Qed.

Lemma try_bind_signal {A B : Type} (m : M ext A) (k : A -> M ext B)
      (handler : Exception -> M ext B) w cls w1 t1 :
  m w = (Raise (NonException cls), w1, t1) ->
  try_except_Exception (bind m k) handler w = (Raise (NonException cls), w1, t1).
Proof.
  intros Hm. unfold try_except_Exception. rewrite (bind_Raise _ _ _ _ _ _ Hm). reflexivity.
Qed.

Lemma respects_ret {A : Type} (P : event -> Prop) (a : A) : respects P (@ret ext A a).
Proof. intros w. cbn. auto. Qed.

Lemma respects_raise {A : Type} (P : event -> Prop) (b : BaseException) :
  respects P (@raise ext A b).
Proof. intros w. cbn. auto. Qed.

Lemma respects_bind {A B : Type} (P : event -> Prop) (m : M ext A) (k : A -> M ext B) :
  respects P m -> (forall a, respects P (k a)) -> respects P (bind m k).
Proof.
  intros Hm Hk w. specialize (Hm w). unfold bind, world_of, events_of in *.
  destruct (m w) as [[[a|b] w1] t1]; cbn in *; [|exact Hm].
  specialize (Hk a w1). unfold world_of, events_of in Hk.
  destruct (k a w1) as [[r w2] t2]; cbn in *.
  destruct Hm as (Hi1 & Hc1 & Ht1), Hk as (Hi2 & Hc2 & Ht2).
  repeat split; [congruence | congruence | apply Forall_app; auto].
Qed.

Lemma respects_try {A : Type} (P : event -> Prop) (body : M ext A) (handler : Exception -> M ext A) :
  respects P body -> (forall e, respects P (handler e)) ->
  respects P (try_except_Exception body handler).
Proof.
  intros Hm Hk w. specialize (Hm w). unfold try_except_Exception, world_of, events_of in *.
  destruct (body w) as [[[a|[e|cls]] w1] t1]; cbn in *; try exact Hm.
  specialize (Hk e w1). unfold world_of, events_of in Hk.
  destruct (handler e w1) as [[r w2] t2]; cbn in *.
  destruct Hm as (Hi1 & Hc1 & Ht1), Hk as (Hi2 & Hc2 & Ht2).
  repeat split; [congruence | congruence | apply Forall_app; auto].
Qed.

Lemma respects_call {A : Type} (P : event -> Prop) (f : ext -> outcome A * ext) (ev : outcome A -> event) :
  (forall r, P (ev r)) -> respects P (call f ev).
Proof.
  intros H w. unfold call, world_of, events_of. destruct (f (external w)) as [r x]. cbn.
  repeat split. constructor; [apply H | constructor].
Qed.

Lemma respects_logging_info (P : event -> Prop) (m : string) :
  P (Ev_log {| levelname := INFO; msg := m; exc_info := None |}) ->
  respects P (@logging_info ext m).
Proof.
  intros H w. unfold logging_info, world_of, events_of. cbn [fst snd].
  destruct (isEnabledFor INFO); repeat split; repeat constructor; exact H.
Qed.

Lemma respects_logging_error (P : event -> Prop) (m : string) (e : Exception) :
  P (Ev_log {| levelname := ERROR; msg := m; exc_info := Some (Exc e) |}) ->
  respects P (@logging_error ext m e).
Proof.
  intros H w. unfold logging_error, world_of, events_of. cbn [fst snd].
  destruct (isEnabledFor ERROR); repeat split; repeat constructor; exact H.
Qed.

Lemma respects_getitem (P : event -> Prop) (d : gmap string string) (key : string) :
  respects P (@getitem ext d key).
Proof. unfold getitem. destruct (d !! key); [apply respects_ret | apply respects_raise]. Qed.

End MonadFacts.

Create HintDb respects.

#[local] Hint Resolve respects_ret respects_raise respects_call respects_logging_info
  respects_logging_error respects_getitem : respects.

(** ** Readers of a run distribute over concatenation *)

Lemma handed_to_agent_app (t1 t2 : list event) :
  handed_to_agent (t1 ++ t2) = handed_to_agent t1 ++ handed_to_agent t2.
Proof.
  induction t1 as [|ev t1 IH]; [reflexivity|].
  destruct ev; cbn; rewrite IH; reflexivity.
Qed.

Lemma connections_used_app (t1 t2 : list event) :
  connections_used (t1 ++ t2) = connections_used t1 ++ connections_used t2.
Proof.
  induction t1 as [|ev t1 IH]; [reflexivity|].
  destruct ev; cbn; rewrite IH; reflexivity.
Qed.

Lemma connections_opened_app (t1 t2 : list event) :
  connections_opened (t1 ++ t2) = (connections_opened t1 + connections_opened t2)%nat.
Proof.
  induction t1 as [|ev t1 IH]; [reflexivity|].
  destruct ev as [[?|?]| | | | | | |]; cbn; rewrite IH; reflexivity.
Qed.

Lemma commands_run_app (t1 t2 : list event) :
  commands_run (t1 ++ t2) = commands_run t1 ++ commands_run t2.
Proof.
  induction t1 as [|ev t1 IH]; [reflexivity|].
  destruct ev; cbn; rewrite IH; reflexivity.
Qed.

Lemma log_of_app (t1 t2 : list event) : log_of (t1 ++ t2) = log_of t1 ++ log_of t2.
Proof.
  induction t1 as [|ev t1 IH]; [reflexivity|].
  destruct ev; cbn; rewrite IH; reflexivity.
Qed.


(** ** The functions of [main.py] *)

Section MainFacts.
Context {ext ModelInput : Type} {env : Collaborators ext ModelInput}.

(** The three ways a call of the accessor can go. *)
Lemma get_instance_cases (w : World ext) :
  (exists db, _instance w = Some db /\ get_instance w = (Return db, w, [])) \/
  (exists u x,
      _instance w = None /\ connect (external w) = (Return u, x) /\
      get_instance w =
        (Return {| db_id := constructed w |},
         {| external := x; _instance := Some {| db_id := constructed w |};
            constructed := S (constructed w) |},
         [Ev_connect (Return tt)])) \/
  (exists b x,
      _instance w = None /\ connect (external w) = (Raise b, x) /\
      get_instance w =
        (Raise b,
         {| external := x; _instance := None; constructed := constructed w |},
         [Ev_connect (Raise b)])).
Proof.
  unfold get_instance. destruct (_instance w) as [db|] eqn:Hi.
  - left. exists db. auto.
  - right. destruct (connect (external w)) as [[u|b] x] eqn:Hc.
    + left. exists u, x. auto.
    + right. exists b, x. auto.
Qed.

Lemma get_db_connection_eq (w : World ext) : get_db_connection w = get_instance w.
Proof.
  unfold get_db_connection, bind, ret.
  destruct (get_instance w) as [[[db|b] w1] t1]; [|reflexivity].
  rewrite app_nil_r. reflexivity.
Qed.

(** Every action of [handle_query] is one of its orchestration actions, and
    the singleton is left alone. *)
Lemma handle_query_respects (userinput : ModelInput) (db : SQLDatabase) :
  respects (orchestration_event userinput db) (handle_query userinput db).
Proof.
  unfold handle_query, handle_query_body.
  apply respects_try.
  - repeat (apply respects_bind; [|intros ?]);
      auto with respects; apply respects_call; intros r; cbn; auto.
  - intros e. apply respects_bind; [|intros ?]; auto with respects.
    apply respects_logging_error. cbn. auto.
Qed.

Lemma orchestration_handed (userinput : ModelInput) (db : SQLDatabase) (t : list event) :
  Forall (orchestration_event userinput db) t ->
  Forall (fun p => p = from_messages (conversation (ModelInput_str userinput)))
         (handed_to_agent t).
Proof.
  induction 1 as [|ev t Hev _ IH]; [constructor|].
  destruct ev; cbn in *; auto. constructor; [|exact IH]. rewrite Hev. reflexivity.
Qed.

(** A request is the dependency followed by the handler on its result. *)
Lemma POST_query_run (userinput : ModelInput) (w : World ext) :
  (exists db w1 t1,
      get_instance w = (Return db, w1, t1) /\
      POST_query userinput w =
        (result_of (handle_query userinput db w1),
         world_of (handle_query userinput db w1),
         t1 ++ events_of (handle_query userinput db w1))) \/
  (exists b w1 t1,
      get_instance w = (Raise b, w1, t1) /\ POST_query userinput w = (Raise b, w1, t1)).
Proof.
  unfold POST_query. destruct (get_db_connection w) as [[[db|b] w1] t1] eqn:Hg.
  - left. exists db, w1, t1. rewrite <- get_db_connection_eq. split; [exact Hg|].
    apply bind_Return. exact Hg.
  - right. exists b, w1, t1. rewrite <- get_db_connection_eq. split; [exact Hg|].
    apply bind_Raise. exact Hg.
Qed.

Lemma get_instance_handed (w : World ext) : handed_to_agent (events_of (get_instance w)) = [].
Proof.
  destruct (get_instance_cases w) as [(db & _ & ->) | [(u & x & _ & _ & ->) | (b & x & _ & _ & ->)]];
    reflexivity.
Qed.

(** Whatever a request hands to the agent is the conversation of lines
    354-360. *)
Lemma POST_query_handed (userinput : ModelInput) (w : World ext) :
  Forall (fun p => p = from_messages (conversation (ModelInput_str userinput)))
         (handed_to_agent (events_of (POST_query userinput w))).
Proof.
  destruct (POST_query_run userinput w) as [(db & w1 & t1 & Hg & ->) | (b & w1 & t1 & Hg & ->)];
    pose proof (get_instance_handed w) as Hh; rewrite Hg in Hh; cbn in Hh.
  - unfold events_of at 1. cbn [snd]. rewrite handed_to_agent_app, Hh. cbn [app].
    apply (orchestration_handed userinput db).
    apply (handle_query_respects userinput db w1).
  - unfold events_of. cbn [snd]. rewrite Hh. constructor.
Qed.

(** The handler of [handle_query] always raises. *)
Lemma handle_query_Return (userinput : ModelInput) (db : SQLDatabase) (w : World ext) d w1 t :
  handle_query userinput db w = (Return d, w1, t) ->
  handle_query_body userinput db w = (Return d, w1, t).
Proof.
  unfold handle_query. apply try_except_Return_inv.
  intros e w'. eexists. reflexivity.
Qed.

(** A successful run of the [try] block: every collaborator returned, in
    the order of the source, and the result is built from the agent's
    [output] entry. *)
Lemma handle_query_body_Return (userinput : ModelInput) (db : SQLDatabase) (w : World ext) d w1 t :
  handle_query_body userinput db w = (Return d, w1, t) ->
  exists llm toolkit dialect ae result out,
    ae_prompt ae = from_messages (conversation (ModelInput_str userinput)) /\
    ae_db ae = db /\
    t = [ Ev_ChatOpenAI llm (Return tt);
          Ev_SQLDatabaseToolkit toolkit (Return tt);
          Ev_dialect toolkit (Return dialect);
          Ev_create_sql_agent ae (Return tt);
          Ev_invoke ae ("Now answer this query: " +:+ ModelInput_str userinput) (Return result) ] /\
    result !! "output" = Some out /\
    d = {[ "response" := out ]}.
Proof.
  unfold handle_query_body. intros H.
  apply bind_Return_inv in H as ([] & wa & ta & ta' & Ha & H & ->).
  apply bind_Return_inv in H as ([] & wb & tb & tb' & Hb & H & ->).
  apply bind_Return_inv in H as (dialect & wc & tc & tc' & Hc & H & ->).
  apply bind_Return_inv in H as ([] & wd & td & td' & Hd & H & ->).
  apply bind_Return_inv in H as (result & we & te & te' & He & H & ->).
  apply bind_Return_inv in H as (out & wf & tf & tf' & Hf & H & ->).
  apply call_inv in Ha as (? & _ & _ & ->).
  apply call_inv in Hb as (? & _ & _ & ->).
  apply call_inv in Hc as (? & _ & _ & ->).
  apply call_inv in Hd as (? & _ & _ & ->).
  apply call_inv in He as (? & _ & _ & ->).
  unfold getitem in Hf. destruct (result !! "output") as [v|] eqn:Hout; [|discriminate].
  injection Hf as -> _ <-. injection H as <- _ <-.
  do 6 eexists. repeat split; try reflexivity; exact Hout.
Qed.

(** A request that returns went through the accessor and then through
    every call of the [try] block. *)
Lemma POST_query_Return (userinput : ModelInput) (w : World ext) (d : gmap string string) :
  result_of (POST_query userinput w) = Return d ->
  exists t1 llm toolkit dialect ae result out,
    handed_to_agent t1 = [] /\
    ae_prompt ae = from_messages (conversation (ModelInput_str userinput)) /\
    events_of (POST_query userinput w) =
      t1 ++ [ Ev_ChatOpenAI llm (Return tt);
              Ev_SQLDatabaseToolkit toolkit (Return tt);
              Ev_dialect toolkit (Return dialect);
              Ev_create_sql_agent ae (Return tt);
              Ev_invoke ae ("Now answer this query: " +:+ ModelInput_str userinput)
                        (Return result) ] /\
    result !! "output" = Some out /\
    d = {[ "response" := out ]}.
Proof.
  intros Hd.
  destruct (POST_query_run userinput w) as [(db & w1 & t1 & Hg & Hp) | (b & w1 & t1 & Hg & Hp)];
    rewrite Hp in Hd |- *; unfold result_of, events_of in *; cbn [fst snd] in *;
    [|discriminate].
  pose proof (get_instance_handed w) as Hh. rewrite Hg in Hh. cbn in Hh.
  destruct (handle_query userinput db w1) as [[r w2] t2] eqn:Hq. cbn in Hd. subst r.
  apply handle_query_Return, handle_query_body_Return in Hq
    as (llm & tk & dialect & ae & result & out & Hprompt & _ & -> & Hout & ->).
  exists t1, llm, tk, dialect, ae, result, out. cbn [fst snd]. auto.
Qed.

End MainFacts.

(** ** The keep-alive job and the singleton *)

Section KeeperFacts.
Context {ext ModelInput : Type} {env : Collaborators ext ModelInput}.

(** The part of the [try] block after the accessor returned [db]. *)
Lemma keep_alive_rest_respects (db : SQLDatabase) :
  respects (keep_alive_event db)
    (call (SQLDatabase_run db "SELECT 1") (Ev_run db "SELECT 1") ;;
     logging_info "Database connection kept alive.").
Proof.
  apply respects_bind; [|intros ?].
  - apply respects_call. intros r. cbn. auto.
  - apply respects_logging_info. cbn. auto.
Qed.

Lemma step_ok_app (w w1 w2 : World ext) (t1 t2 : list event) :
  step_ok w w1 t1 -> step_ok w1 w2 t2 -> step_ok w w2 (t1 ++ t2).
Proof.
  intros (_ & Hu1 & Hc1 & Hr1) (Hs & Hu2 & Hc2 & Hr2). unfold step_ok.
  rewrite connections_used_app, connections_opened_app, commands_run_app.
  repeat split; [exact Hs | apply Forall_app; auto | lia | apply Forall_app; auto].
Qed.

(** The accessor keeps the invariant, and what it returns is the one
    connection, which is then the value of [_instance]. *)
Lemma get_instance_step (w : World ext) :
  singleton_ok w ->
  step_ok w (world_of (get_instance w)) (events_of (get_instance w)) /\
  (forall db, result_of (get_instance w) = Return db ->
              db = the_connection /\ _instance (world_of (get_instance w)) = Some db).
Proof.
  unfold step_ok, singleton_ok, world_of, events_of, result_of. intros Hw.
  destruct (get_instance_cases w)
    as [(db & Hi & ->) | [(u & x & Hi & _ & ->) | (b & x & Hi & _ & ->)]];
    rewrite Hi in Hw; cbn.
  - rewrite Hi. destruct Hw as [-> Hc].
    split; [repeat split; auto; try constructor; lia | intros db' [= <-]; auto].
  - rewrite Hw. split; [repeat split; auto; constructor | intros db' [= <-]; auto].
  - split; [repeat split; auto; try constructor; lia | intros db' [=]].
Qed.

(** A computation that only uses a connection it was given keeps the
    invariant. *)
Lemma respects_step {A : Type} (P : event -> Prop) (m : M ext A) (w : World ext) :
  respects P m ->
  (forall t, Forall P t ->
     Forall (fun c => c = the_connection) (connections_used t) /\
     connections_opened t = O /\
     Forall (fun command => command = "SELECT 1") (commands_run t)) ->
  singleton_ok w ->
  step_ok w (world_of (m w)) (events_of (m w)).
Proof.
  intros Hm HP Hw. destruct (Hm w) as (Hi & Hc & Ht).
  destruct (HP _ Ht) as (Hu & Ho & Hr).
  unfold step_ok, singleton_ok in *. rewrite Hi, Hc, Ho.
  repeat split; auto; lia.
Qed.

Lemma keep_alive_event_uses (db : SQLDatabase) (t : list event) :
  Forall (keep_alive_event db) t ->
  Forall (fun c => c = db) (connections_used t) /\
  connections_opened t = O /\
  Forall (fun command => command = "SELECT 1") (commands_run t).
Proof.
  induction 1 as [|ev t Hev _ (IH1 & IH2 & IH3)]; [repeat split; constructor|].
  destruct ev; cbn in *; try contradiction; auto.
  destruct Hev as [-> ->]. repeat split; auto.
Qed.

Lemma orchestration_event_uses (userinput : ModelInput) (db : SQLDatabase) (t : list event) :
  Forall (orchestration_event userinput db) t ->
  Forall (fun c => c = db) (connections_used t) /\
  connections_opened t = O /\
  Forall (fun command => command = "SELECT 1") (commands_run t).
Proof.
  induction 1 as [|ev t Hev _ (IH1 & IH2 & IH3)]; [repeat split; constructor|].
  destruct ev; cbn in *; try contradiction; auto.
  - subst tk. repeat split; auto.
  - subst ae. repeat split; auto.
  - destruct Hev as [-> _]. repeat split; auto.
Qed.

Lemma keep_connection_alive_step (w : World ext) :
  singleton_ok w ->
  step_ok w (world_of (keep_connection_alive w)) (events_of (keep_connection_alive w)).
Proof.
  intros Hw. destruct (get_instance_step w Hw) as [Hstep Hdb].
  unfold keep_connection_alive, keep_connection_alive_body.
  destruct (get_instance w) as [[[db|[e|cls]] w1] t1] eqn:Hg;
    unfold world_of, events_of, result_of in Hstep, Hdb; cbn in Hstep, Hdb.
  - rewrite (try_bind_Return _ _ _ _ _ _ _ Hg). destruct (Hdb db eq_refl) as [-> _].
    unfold world_of, events_of; cbn [fst snd].
    apply (step_ok_app w w1); [exact Hstep|].
    apply (respects_step (keep_alive_event the_connection)).
    + apply respects_try; [apply keep_alive_rest_respects|].
      intros e. apply respects_logging_error. cbn. auto.
    + apply keep_alive_event_uses.
    + apply Hstep.
  - rewrite (try_bind_Raise _ _ _ _ _ _ _ Hg).
    unfold world_of, events_of; cbn [fst snd].
    apply (step_ok_app w w1); [exact Hstep|].
    apply (respects_step (keep_alive_event the_connection)).
    + apply respects_logging_error. cbn. auto.
    + apply keep_alive_event_uses.
    + apply Hstep.
  - rewrite (try_bind_signal _ _ _ _ _ _ _ Hg). exact Hstep.
Qed.

Lemma POST_query_step (userinput : ModelInput) (w : World ext) :
  singleton_ok w ->
  step_ok w (world_of (POST_query userinput w)) (events_of (POST_query userinput w)).
Proof.
  intros Hw. destruct (get_instance_step w Hw) as [Hstep Hdb].
  destruct (POST_query_run userinput w) as [(db & w1 & t1 & Hg & ->) | (b & w1 & t1 & Hg & ->)];
    rewrite Hg in Hstep, Hdb; unfold world_of, events_of, result_of in Hstep, Hdb;
    cbn in Hstep, Hdb.
  - destruct (Hdb db eq_refl) as [-> _].
    unfold world_of, events_of; cbn [fst snd].
    apply (step_ok_app w w1); [exact Hstep|].
    apply (respects_step (orchestration_event userinput the_connection)).
    + apply handle_query_respects.
    + apply orchestration_event_uses.
    + apply Hstep.
  - exact Hstep.
Qed.

Lemma perform_step (op : operation) (w : World ext) :
  singleton_ok w -> step_ok w (perform op w).1 (perform op w).2.
Proof.
  intros Hw. destruct op; cbn.
  - apply get_instance_step, Hw.
  - rewrite get_db_connection_eq. apply get_instance_step, Hw.
  - apply keep_connection_alive_step, Hw.
  - apply POST_query_step, Hw.
Qed.

(** The invariant over whole histories. *)
Lemma perform_all_step (ops : list operation) (w : World ext) :
  singleton_ok w -> step_ok w (perform_all ops w).1 (perform_all ops w).2.
Proof.
  revert w. induction ops as [|op ops IH]; intros w Hw.
  - cbn. repeat split; auto; constructor.
  - cbn. pose proof (perform_step op w Hw) as H1.
    destruct (perform op w) as [w1 t1]. cbn in H1.
    pose proof (IH w1 (proj1 H1)) as H2.
    destruct (perform_all ops w1) as [w2 t2]. cbn in *.
    apply (step_ok_app w w1); assumption.
Qed.




(** The connection a firing pings is the value of [_instance]. *)
Lemma keep_connection_alive_uses (w : World ext) :
  Forall (fun db => _instance (world_of (keep_connection_alive w)) = Some db)
         (connections_used (events_of (keep_connection_alive w))) /\
  Forall (fun command => command = "SELECT 1")
         (commands_run (events_of (keep_connection_alive w))).
Proof.
  unfold keep_connection_alive, keep_connection_alive_body.
  assert (Hrest : forall db, respects (keep_alive_event db)
            (try_except_Exception
               (call (SQLDatabase_run db "SELECT 1") (Ev_run db "SELECT 1") ;;
                logging_info "Database connection kept alive.")
               (fun e => logging_error "Error in keep_connection_alive:" e))).
  { intros db. apply respects_try; [apply keep_alive_rest_respects|].
    intros e. apply respects_logging_error. cbn. auto. }
  destruct (get_instance_cases w)
    as [(db & Hi & Hg) | [(u & x & Hi & _ & Hg) | (b & x & Hi & _ & Hg)]].
  - rewrite (try_bind_Return _ _ _ _ _ _ _ Hg). unfold world_of, events_of. cbn [fst snd app].
    destruct (Hrest db w) as (Hinst & _ & Hev). unfold world_of, events_of in *.
    destruct (keep_alive_event_uses db _ Hev) as (Hu & _ & Hc).
    split; [|exact Hc]. rewrite Hinst, Hi. eapply Forall_impl; [exact Hu|].
    cbn. intros c ->. reflexivity.
  - rewrite (try_bind_Return _ _ _ _ _ _ _ Hg). unfold world_of, events_of. cbn [fst snd].
    rewrite connections_used_app, commands_run_app. cbn [connections_used commands_run app].
    match goal with |- context [try_except_Exception ?b ?h ?w1] =>
      destruct (Hrest {| db_id := constructed w |} w1) as (Hinst & _ & Hev) end.
    unfold world_of, events_of in *.
    destruct (keep_alive_event_uses _ _ Hev) as (Hu & _ & Hc).
    split; [|exact Hc]. rewrite Hinst. cbn. eapply Forall_impl; [exact Hu|].
    cbn. intros c ->. reflexivity.
  - destruct b as [e|cls].
    + rewrite (try_bind_Raise _ _ _ _ _ _ _ Hg). cbn. split; constructor.
    + rewrite (try_bind_signal _ _ _ _ _ _ _ Hg). cbn. split; constructor.
Qed.



End KeeperFacts.

(** ** Query normalization *)

Section NormalizationFacts.
Variable punctuation : ascii -> bool.

Lemma lower_lower (c : ascii) : lower (lower c) = lower c.
Proof. destruct c as [[] [] [] [] [] [] [] []]; reflexivity. Qed.

Lemma fold_char_idempotent (c : ascii) :
  fold_char punctuation (fold_char punctuation c) = fold_char punctuation c.
Proof.
  unfold fold_char. destruct (punctuation (lower c)) eqn:Hp.
  - change (lower space) with space. destruct (punctuation space); reflexivity.
  - rewrite lower_lower, Hp. reflexivity.
Qed.

Lemma fields_not_nil (s : list ascii) : fields s <> [].
Proof.
  destruct s as [|c s]; cbn; [discriminate|].
  destruct (is_space c); [discriminate|]. destruct (fields s); discriminate.
Qed.

Lemma fields_no_space (s : list ascii) :
  Forall (Forall (fun c => is_space c = false)) (fields s).
Proof.
  induction s as [|c s IH]; cbn.
  - repeat constructor.
  - destruct (is_space c) eqn:Hc.
    + constructor; [constructor | exact IH].
    + destruct (fields s) as [|w ws]; [repeat constructor; exact Hc|].
      inversion IH as [|? ? Hw Hws]; subst. constructor; [constructor; assumption | assumption].
Qed.

Lemma fields_keep (Q : ascii -> Prop) (s : list ascii) :
  Forall Q s -> Forall (Forall Q) (fields s).
Proof.
  induction 1 as [|c s Hc _ IH]; cbn.
  - repeat constructor.
  - destruct (is_space c).
    + constructor; [constructor | exact IH].
    + destruct (fields s) as [|w ws]; [repeat constructor; exact Hc|].
      inversion IH as [|? ? Hw Hws]; subst. constructor; [constructor; assumption | assumption].
Qed.

Lemma split_words (s : list ascii) : Forall word (split s).
Proof.
  unfold split. pose proof (fields_no_space s) as H.
  induction H as [|w ws Hw _ IH]; cbn; [constructor|].
  destruct (nonempty w) eqn:Hn; [|exact IH].
  constructor; [split; assumption | exact IH].
Qed.

Lemma split_keep (Q : ascii -> Prop) (s : list ascii) :
  Forall Q s -> Forall (Forall Q) (split s).
Proof.
  intros H. unfold split. pose proof (fields_keep Q s H) as HF.
  induction HF as [|w ws Hw _ IH]; cbn; [constructor|].
  destruct (nonempty w); [constructor; assumption | exact IH].
Qed.

Lemma join_keep (Q : ascii -> Prop) (ws : list (list ascii)) :
  Q space -> Forall (Forall Q) ws -> Forall Q (join ws).
Proof.
  intros Hs. induction 1 as [|w ws Hw Hws IH]; cbn; [constructor|].
  destruct ws as [|w' ws']; [exact Hw|].
  apply Forall_app. split; [exact Hw | constructor; [exact Hs | exact IH]].
Qed.

Lemma fields_word_then (w r : list ascii) :
  Forall (fun c => is_space c = false) w ->
  fields (w ++ space :: r) = w :: fields r.
Proof.
  induction 1 as [|c w Hc _ IH]; cbn; [reflexivity|].
  rewrite Hc. cbn in IH. rewrite IH. reflexivity.
Qed.

Lemma fields_word (w : list ascii) :
  Forall (fun c => is_space c = false) w -> fields w = [w].
Proof.
  induction 1 as [|c w Hc _ IH]; cbn; [reflexivity|].
  rewrite Hc, IH. reflexivity.
Qed.

Lemma fields_join (w : list ascii) (ws : list (list ascii)) :
  Forall word (w :: ws) -> fields (join (w :: ws)) = w :: ws.
Proof.
  revert w. induction ws as [|w' ws IH]; intros w H; inversion H as [|? ? [_ Hw] Hws]; subst.
  - cbn. apply fields_word, Hw.
  - change (join (w :: w' :: ws)) with (w ++ space :: join (w' :: ws)).
    rewrite (fields_word_then w _ Hw), (IH w' Hws). reflexivity.
Qed.

Lemma filter_words (ws : list (list ascii)) :
  Forall word ws -> List.filter nonempty ws = ws.
Proof.
  induction 1 as [|w ws [Hn _] _ IH]; cbn; [reflexivity|]. rewrite Hn, IH. reflexivity.
Qed.

(** Splitting what was joined from words gives the words back. *)
Lemma split_join (ws : list (list ascii)) : Forall word ws -> split (join ws) = ws.
Proof.
  intros H. unfold split. destruct ws as [|w ws]; [reflexivity|].
  rewrite (fields_join w ws H). apply filter_words, H.
Qed.

Lemma map_fixed (f : ascii -> ascii) (l : list ascii) :
  Forall (fun c => f c = c) l -> List.map f l = l.
Proof. induction 1 as [|c l Hc _ IH]; cbn; [reflexivity|]. rewrite Hc, IH. reflexivity. Qed.

Lemma fold_char_space : fold_char punctuation space = space.
Proof. unfold fold_char. change (lower space) with space. destruct (punctuation space); reflexivity. Qed.

End NormalizationFacts.

(** ** Threads *)

Section ThreadFacts.
Context {ext ModelInput : Type} {env : Collaborators ext ModelInput}.

Lemma run_atom {A : Type} (m : M ext A) (w : World ext) : run (atom m) w = m w.
Proof.
  unfold atom. cbn. destruct (m w) as [[r w1] t1]. rewrite app_nil_r. reflexivity.
Qed.

Lemma run_tbind {A B : Type} (t : thread ext A) (k : A -> thread ext B) (w : World ext) :
  run (tbind t k) w = bind (run t) (fun a => run (k a)) w.
Proof.
  revert w. induction t as [[a|b]|A' m c IH]; intros w.
  - unfold bind. cbn. destruct (run (k a) w) as [[r w1] t1]. reflexivity.
  - reflexivity.
  - unfold bind in *. cbn. destruct (m w) as [[r w1] t1]. rewrite IH.
    destruct (run (c r) w1) as [[[a|b] w2] t2]; [|reflexivity].
    destruct (run (k a) w2) as [[r3 w3] t3]. rewrite app_assoc. reflexivity.
Qed.

Lemma run_ttry {A : Type} (t : thread ext A) (handler : Exception -> thread ext A)
      (w : World ext) :
  run (ttry t handler) w = try_except_Exception (run t) (fun e => run (handler e)) w.
Proof.
  revert w. induction t as [[a|[e|cls]]|A' m c IH]; intros w.
  - reflexivity.
  - unfold try_except_Exception. cbn. destruct (run (handler e) w) as [[r w1] t1]. reflexivity.
  - reflexivity.
  - unfold try_except_Exception in *. cbn. destruct (m w) as [[r w1] t1]. rewrite IH.
    destruct (run (c r) w1) as [[[a|[e|cls]] w2] t2]; try reflexivity.
    destruct (run (handler e) w2) as [[r3 w3] t3]. rewrite app_assoc. reflexivity.
Qed.

Lemma bind_ext {A B : Type} (m1 m2 : M ext A) (k1 k2 : A -> M ext B) (w : World ext) :
  (forall w', m1 w' = m2 w') -> (forall a w', k1 a w' = k2 a w') ->
  bind m1 k1 w = bind m2 k2 w.
Proof.
  intros Hm Hk. unfold bind. rewrite Hm. destruct (m2 w) as [[[a|b] w1] t1]; [|reflexivity].
  rewrite Hk. reflexivity.
Qed.

Lemma try_ext {A : Type} (m1 m2 : M ext A) (h1 h2 : Exception -> M ext A) (w : World ext) :
  m1 w = m2 w -> (forall e w', h1 e w' = h2 e w') ->
  try_except_Exception m1 h1 w = try_except_Exception m2 h2 w.
Proof.
  intros Hm Hh. unfold try_except_Exception. rewrite Hm.
  destruct (m2 w) as [[[a|[e|cls]] w1] t1]; try reflexivity.
  rewrite Hh. reflexivity.
Qed.

(** A thread against the function it was cut from, statement by
    statement. *)
Ltac same_code :=
  repeat first
    [ apply run_atom
    | rewrite run_tbind; apply bind_ext; [intros ?; apply run_atom | intros ? ?]
    | reflexivity ].

(** Run without interruption, each thread is the function it was cut
    from. *)
Lemma run_keep_connection_alive_thread (w : World ext) :
  run keep_connection_alive_thread w = keep_connection_alive w.
Proof.
  unfold keep_connection_alive_thread, keep_connection_alive, keep_connection_alive_body.
  rewrite run_ttry. apply try_ext; [|intros e w'; apply run_atom].
  same_code.
Qed.

Lemma run_get_db_connection_thread (w : World ext) :
  run get_db_connection_thread w = get_db_connection w.
Proof. unfold get_db_connection_thread, get_db_connection. same_code. Qed.

Lemma run_handle_query_thread (userinput : ModelInput) (db : SQLDatabase) (w : World ext) :
  run (handle_query_thread userinput db) w = handle_query userinput db w.
Proof.
  unfold handle_query_thread, handle_query.
  rewrite run_ttry. apply try_ext.
  - unfold handle_query_body_thread, handle_query_body. cbv zeta. same_code.
  - intros e w'. same_code.
Qed.

Lemma run_POST_query_thread (userinput : ModelInput) (w : World ext) :
  run (POST_query_thread userinput) w = POST_query userinput w.
Proof.
  unfold POST_query_thread, POST_query. rewrite run_tbind.
  apply bind_ext; [apply run_get_db_connection_thread | apply run_handle_query_thread].
Qed.

Lemma client_atom {A : Type} (db : SQLDatabase) (m : M ext A) :
  respects (client_event db) m -> client db (atom m).
Proof. intros H. split; [exact H | intros r; exact I]. Qed.

Lemma client_tbind {A B : Type} (db : SQLDatabase) (t : thread ext A) (k : A -> thread ext B) :
  client db t -> (forall a, client db (k a)) -> client db (tbind t k).
Proof.
  intros Ht Hk. induction t as [[a|b]|A' m c IH]; cbn in *.
  - apply Hk.
  - exact I.
  - destruct Ht as [Hm Hc]. split; [exact Hm|]. intros r. apply IH, Hc.
Qed.

Lemma client_ttry {A : Type} (db : SQLDatabase) (t : thread ext A)
      (handler : Exception -> thread ext A) :
  client db t -> (forall e, client db (handler e)) -> client db (ttry t handler).
Proof.
  intros Ht Hh. induction t as [[a|[e|cls]]|A' m c IH]; cbn in *.
  - exact I.
  - apply Hh.
  - exact I.
  - destruct Ht as [Hm Hc]. split; [exact Hm|]. intros r. apply IH, Hc.
Qed.

Lemma client_event_log (db : SQLDatabase) (rec : LogRecord) : client_event db (Ev_log rec).
Proof. exact I. Qed.

(** After the accessor, the keep-alive job works on what it got. *)
Lemma keep_connection_alive_rest_client (db : SQLDatabase) :
  client db
    (ttry
       (atom (call (SQLDatabase_run db "SELECT 1") (Ev_run db "SELECT 1")) ;;
        atom (logging_info "Database connection kept alive."))%thread
       (fun e => atom (logging_error "Error in keep_connection_alive:" e))).
Proof.
  apply client_ttry.
  - apply client_tbind; [|intros _].
    + apply client_atom, respects_call. intros r. reflexivity.
    + apply client_atom, respects_logging_info, client_event_log.
  - intros e. apply client_atom, respects_logging_error, client_event_log.
Qed.

(** [handle_query] works on the [db] it is called with. *)
Lemma handle_query_thread_client (userinput : ModelInput) (db : SQLDatabase) :
  client db (handle_query_thread userinput db).
Proof.
  unfold handle_query_thread, handle_query_body_thread. cbv zeta.
  apply client_ttry.
  - repeat (apply client_tbind; [|intros ?]);
      try (apply client_atom, respects_call; intros r; cbn; auto; fail).
    + apply client_atom, respects_getitem.
    + exact I.
  - intros e. apply client_tbind; [|intros _; exact I].
    apply client_atom, respects_logging_error, client_event_log.
Qed.

(** A thread that starts with the accessor and then works on what it got
    has yet to get its connection. *)
Lemma entering_accessor {R : Type} (k : outcome SQLDatabase -> thread ext R) :
  (forall db, client db (k (Return db))) ->
  (forall b db, client db (k (Raise b))) ->
  entering (Atom get_instance k).
Proof.
  intros Hret Hraise w Hw. unfold singleton_ok in *.
  unfold world_of, events_of, result_of.
  destruct (get_instance_cases w)
    as [(db & Hi & ->) | [(u & x & Hi & _ & ->) | (b & x & Hi & _ & ->)]];
    rewrite Hi in Hw; cbn.
  - rewrite Hi. destruct Hw as [-> Hc].
    split; [auto|]. split; [reflexivity|]. split; [lia|]. split; [auto|].
    left. split; [reflexivity | apply Hret].
  - rewrite Hw. split; [auto|]. split; [reflexivity|]. split; [reflexivity|].
    split; [auto|]. left. split; [reflexivity | apply Hret].
  - rewrite Hi. split; [auto|]. split; [reflexivity|]. split; [cbn; lia|].
    split; [congruence|]. right. intros db. apply Hraise.
Qed.

(** Every operation starts as a thread that has yet to get its
    connection. *)
Lemma spawn_ok (op : operation) (w : World ext) : worker_ok w (spawn op).
Proof.
  destruct op; unfold spawn, worker_ok; left.
  - apply entering_accessor; intros; exact I.
  - unfold get_db_connection_thread. cbn [tbind atom].
    apply entering_accessor; intros; exact I.
  - unfold keep_connection_alive_thread. cbn [ttry tbind atom].
    apply entering_accessor.
    + intros db. apply keep_connection_alive_rest_client.
    + intros [e|cls] db; cbn [ttry tbind]; [|exact I].
      apply (client_atom db), respects_logging_error, client_event_log.
  - unfold POST_query_thread, get_db_connection_thread. cbn [tbind atom].
    apply entering_accessor.
    + intros db. cbn [tbind tret]. apply handle_query_thread_client.
    + intros b db. exact I.
Qed.

Lemma client_event_used (db : SQLDatabase) (t : list event) :
  Forall (client_event db) t ->
  Forall (fun c => c = db) (connections_used t) /\ connections_opened t = O.
Proof.
  induction 1 as [|ev t Hev _ [IH1 IH2]]; [split; [constructor | reflexivity]|].
  destruct ev; cbn in *; try contradiction; auto.
Qed.

Lemma stretch_ok_app (w w1 w2 : World ext) (t1 t2 : list event) :
  stretch_ok w w1 t1 -> stretch_ok w1 w2 t2 -> stretch_ok w w2 (t1 ++ t2).
Proof.
  intros (_ & Hc1 & Hu1 & Hm1) (Hs & Hc2 & Hu2 & Hm2). unfold stretch_ok.
  rewrite connections_used_app, connections_opened_app.
  repeat split; [exact Hs | lia | | auto].
  apply Forall_app. split; [|exact Hu2].
  eapply Forall_impl; [exact Hu1|]. cbn. intros c [-> Hi]. auto.
Qed.

Lemma worker_ok_mono (w w1 : World ext) (tk : worker) :
  (_instance w = Some the_connection -> _instance w1 = Some the_connection) ->
  worker_ok w tk -> worker_ok w1 tk.
Proof.
  intros Hm. destruct tk as [R t]. cbn. intros [H | [H | [Hi H]]]; auto.
Qed.

(** One action of one worker keeps everything in order. *)
Lemma step_worker_ok (w : World ext) (tk : worker) :
  singleton_ok w -> worker_ok w tk ->
  stretch_ok w (step_worker tk w).1.1 (step_worker tk w).1.2 /\
  worker_ok (step_worker tk w).1.1 (step_worker tk w).2.
Proof.
  intros Hw Htk. destruct tk as [R [r|A m k]].
  - cbn. split; [|exact Htk]. repeat split; auto; constructor.
  - cbn [step_worker]. cbn in Htk.
    destruct Htk as [Hent | [Hall | [Hi Hcl]]].
    + specialize (Hent w Hw). unfold world_of, events_of, result_of in Hent.
      destruct (m w) as [[r w1] t1]. cbn [fst snd] in *.
      destruct Hent as (Hs & Hu & Hc & Hm & Hk).
      split.
      * repeat split; auto. rewrite Hu. constructor.
      * cbn. destruct Hk as [[Hi Hcl] | Hcl]; auto.
    + destruct (Hall the_connection) as [Hm0 Hk0].
      destruct (Hall {| db_id := 1 |}) as [Hm1 _].
      destruct (Hm0 w) as (Hi & Hc & Hev0). destruct (Hm1 w) as (_ & _ & Hev1).
      unfold world_of, events_of in *.
      destruct (m w) as [[r w1] t1]. cbn [fst snd] in *.
      destruct (client_event_used _ _ Hev0) as [Hu0 Ho].
      destruct (client_event_used _ _ Hev1) as [Hu1 _].
      assert (Hnone : connections_used t1 = []).
      { destruct (connections_used t1) as [|c l]; [reflexivity|].
        inversion Hu0; inversion Hu1; subst. discriminate. }
      split.
      * unfold stretch_ok, singleton_ok in *. rewrite Hi, Hc, Ho, Hnone.
        repeat split; auto; try lia; try constructor.
      * cbn. right. left. intros db. apply (Hall db).
    + destruct Hcl as [Hm0 Hk0]. destruct (Hm0 w) as (Hi' & Hc & Hev0).
      unfold world_of, events_of in *.
      destruct (m w) as [[r w1] t1]. cbn [fst snd] in *.
      destruct (client_event_used _ _ Hev0) as [Hu0 Ho].
      split.
      * unfold stretch_ok, singleton_ok in *. rewrite Hi', Hc, Ho.
        repeat split; auto; try lia.
        eapply Forall_impl; [exact Hu0|]. cbn. intros c ->. auto.
      * cbn. right. right. split; [congruence | apply Hk0].
Qed.

(** The invariant over every interleaving. *)
Lemma interleave_ok (schedule : list nat) (w : World ext) (pool : list worker) :
  singleton_ok w -> Forall (worker_ok w) pool ->
  stretch_ok w (interleave schedule w pool).1.1 (interleave schedule w pool).1.2 /\
  Forall (worker_ok (interleave schedule w pool).1.1) (interleave schedule w pool).2.
Proof.
  revert w pool. induction schedule as [|i schedule IH]; intros w pool Hw Hpool.
  - cbn. split; [|exact Hpool]. repeat split; auto; constructor.
  - cbn [interleave]. destruct (pool !! i) as [tk|] eqn:Hlook; [|apply IH; assumption].
    pose proof (Forall_lookup_1 _ _ _ _ Hpool Hlook) as Htk.
    destruct (step_worker_ok w tk Hw Htk) as [Hstep Htk'].
    destruct (step_worker tk w) as [[w1 t1] tk']. cbn [fst snd] in *.
    assert (Hpool1 : Forall (worker_ok w1) (<[i := tk']> pool)).
    { apply Forall_insert; [|exact Htk'].
      eapply Forall_impl; [exact Hpool|]. intros tk0. apply worker_ok_mono, Hstep. }
    destruct (IH w1 _ (proj1 Hstep) Hpool1) as [Hrest Hfinal].
    destruct (interleave schedule w1 (<[i := tk']> pool)) as [[w2 t2] pool2].
    cbn [fst snd] in *. split; [|exact Hfinal].
    apply (stretch_ok_app w w1); assumption.
Qed.

End ThreadFacts.

(** * The claims *)

Section Claims.
Context {ext ModelInput : Type} {env : Collaborators ext ModelInput}.

(** C1.  The row cap is carried as instruction text and nowhere else.
    Every conversation a [POST /query/] request hands to the SQL agent opens
    with the system block [prefix] followed by the rendered question; a
    request that returns handed over exactly that conversation and returns
    the [output] of the agent built on it, unchanged; and [prefix] states
    the policy: a default of 30 rows without an explicit limit, and a limit
    given by the user overriding that default, first in the stated
    priority. *)
Theorem default_cap_carried (userinput : ModelInput) (w : World ext) :
  Forall (fun p => exists rest,
            messages p =
              SystemMessage prefix :: HumanMessage (ModelInput_str userinput) :: rest)
         (handed_to_agent (events_of (POST_query userinput w))) /\
  (forall d,
      result_of (POST_query userinput w) = Return d ->
      handed_to_agent (events_of (POST_query userinput w)) =
        [from_messages (conversation (ModelInput_str userinput))] /\
      exists before ae result out,
        events_of (POST_query userinput w) =
          before ++ [Ev_invoke ae ("Now answer this query: " +:+ ModelInput_str userinput)
                               (Return result)] /\
        ae_prompt ae = from_messages (conversation (ModelInput_str userinput)) /\
        result !! "output" = Some out /\
        d = {[ "response" := out ]}) /\
  contains "The value of `top_k` is dynamically set to **30** by default for this session, ensuring the response includes at most 30 results unless overridden by user input."
           prefix = true /\
  contains "If no explicit limit is mentioned in the query, default to **LIMIT {top_k}**, where `top_k=30` for this session."
           prefix = true /\
  contains "If the user explicitly specifies a `LIMIT` value, override the default `top_k` and use the user's provided value."
           prefix = true /\
  contains "1. Explicit value provided by the user." prefix = true /\
  contains "2. Default value set to `top_k=30` for this session." prefix = true.
Proof.
  split; [|split; [|repeat split; vm_compute; reflexivity]].
  - eapply Forall_impl; [apply POST_query_handed|].
    cbn. intros p ->. eexists. reflexivity.
  - intros d Hd.
    destruct (POST_query_Return userinput w d Hd)
      as (t1 & llm & tk & dialect & ae & result & out & Hh & Hprompt & Hev & Hout & ->).
    rewrite Hev. split.
    + rewrite handed_to_agent_app, Hh. cbn. rewrite Hprompt. reflexivity.
    + exists (t1 ++ [ Ev_ChatOpenAI llm (Return tt); Ev_SQLDatabaseToolkit tk (Return tt);
                      Ev_dialect tk (Return dialect); Ev_create_sql_agent ae (Return tt) ]),
             ae, result, out.
      rewrite <- app_assoc. auto.
Qed.

(** C2.  Whenever the [try] block of [handle_query] raises an [Exception]
    [e], the handler logs [e] at level ERROR and [handle_query] raises
    [HTTPException] with status 500 and the fixed detail; and no other
    [Exception] ever leaves [handle_query], so nothing of [e] is in what the
    client is answered from. *)
Theorem handle_query_generic_500
    (userinput : ModelInput) (db : SQLDatabase) (w : World ext) :
  (forall e w1 t1,
      handle_query_body userinput db w = (Raise (Exc e), w1, t1) ->
      handle_query userinput db w =
        (Raise (Exc (HTTPException 500 "An error occurred while processing the request.")),
         w1,
         t1 ++ [Ev_log {| levelname := ERROR; msg := "Error handling query:";
                          exc_info := Some (Exc e) |}])) /\
  (forall e',
      result_of (handle_query userinput db w) = Raise (Exc e') ->
      e' = HTTPException 500 "An error occurred while processing the request.").
Proof.
  split.
  - intros e w1 t1 H. unfold handle_query, try_except_Exception. rewrite H. reflexivity.
  - intros e'. unfold handle_query, try_except_Exception.
    destruct (handle_query_body userinput db w) as [[[d|[e|cls]] w1] t1]; cbn;
      intros H; try discriminate.
    injection H as <-. reflexivity.
Qed.

(** C3.  The system message of every conversation handed to the agent is
    [prefix] itself: the placeholders [{dialect}], [{top_k}],
    [{column_metadata}] and [{Metadata_Groupings}] are still in it, the
    heading both metadata texts start from is not, the number 10 occurs in
    neither instruction block, and the conversation is the same whatever [toolkit.dialect]
    yields. *)
Theorem placeholders_stay_literal (userinput : ModelInput) (w : World ext) :
  Forall (fun p => messages p !! O = Some (SystemMessage prefix))
         (handed_to_agent (events_of (POST_query userinput w))) /\
  (forall f,
      Forall (fun p => p = from_messages
                             [ SystemMessage prefix;
                               HumanMessage (ModelInput_str userinput);
                               AIMessage suffix;
                               MessagesPlaceholder "agent_scratchpad" ])
             (handed_to_agent
                (events_of (POST_query (env := set_dialect f) userinput w)))) /\
  contains "{dialect}" prefix = true /\
  contains "{top_k}" prefix = true /\
  contains "{column_metadata}" prefix = true /\
  contains "{Metadata_Groupings}" prefix = true /\
  contains "**Columns Metadata:**" column_metadata = true /\
  contains "**Columns Metadata:**" Metadata_Groupings = true /\
  contains "**Columns Metadata:**" prefix = false /\
  contains "10" prefix = false /\
  contains "10" suffix = false.
Proof.
  split; [|split; [|repeat split; vm_compute; reflexivity]].
  - eapply Forall_impl; [apply POST_query_handed|]. cbn. intros p ->. reflexivity.
  - intros f. apply (POST_query_handed (env := set_dialect f)).
Qed.

(** C4.  The conversation handed to the agent is, in this order: the system
    message [prefix] (role, responsibilities, SQL construction rules), the
    human message with the question, the AI message [suffix] (fallback and
    formatting rules), and the placeholder [agent_scratchpad]; a request
    that succeeds handed over exactly one such conversation. *)
Theorem conversation_order (userinput : ModelInput) (w : World ext) :
  Forall (fun p => messages p =
                     [ SystemMessage prefix;
                       HumanMessage (ModelInput_str userinput);
                       AIMessage suffix;
                       MessagesPlaceholder "agent_scratchpad" ])
         (handed_to_agent (events_of (POST_query userinput w))) /\
  (forall d, result_of (POST_query userinput w) = Return d ->
             exists p, handed_to_agent (events_of (POST_query userinput w)) = [p]) /\
  contains "You are an advanced SQL database assistant" prefix = true /\
  contains "### Responsibilities:" prefix = true /\
  contains "### SQL Query Construction:" prefix = true /\
  contains "If asked about the database structure, table design, or unavailable data, respond politely:"
           suffix = true /\
  contains "Use **Markdown** tables with proper column headers and alignments." suffix = true.
Proof.
  split; [|split; [|repeat split; vm_compute; reflexivity]].
  - eapply Forall_impl; [apply POST_query_handed|]. cbn. intros p ->. reflexivity.
  - intros d Hd.
    destruct (POST_query_run userinput w) as [(db & w1 & t1 & Hg & Hp) | (b & w1 & t1 & Hg & Hp)];
      rewrite Hp in Hd |- *; unfold result_of, events_of in *; cbn [fst snd] in *;
      [|discriminate].
    pose proof (get_instance_handed w) as Hh. rewrite Hg in Hh. cbn in Hh.
    rewrite handed_to_agent_app, Hh. cbn [app].
    destruct (handle_query userinput db w1) as [[r w2] t2] eqn:Hq. cbn in Hd. subst r.
    apply handle_query_Return, handle_query_body_Return in Hq
      as (llm & tk & dialect & ae & result & out & _ & _ & -> & _).
    cbn. eauto.
Qed.

(** C5.  When [POST /query/] returns, the last action of the run was the
    agent's [invoke] on [Now answer this query:] followed by the rendered
    question, and the returned dictionary has the single key [response],
    bound to the [output] entry of the agent's result. *)
Theorem response_is_agent_output
    (userinput : ModelInput) (w : World ext) (d : gmap string string) :
  result_of (POST_query userinput w) = Return d ->
  exists t0 ae result out,
    events_of (POST_query userinput w) =
      t0 ++ [Ev_invoke ae ("Now answer this query: " +:+ ModelInput_str userinput)
                       (Return result)] /\
    result !! "output" = Some out /\
    d = {[ "response" := out ]}.
Proof.
  intros Hd.
  destruct (POST_query_run userinput w) as [(db & w1 & t1 & Hg & Hp) | (b & w1 & t1 & Hg & Hp)];
    rewrite Hp in Hd |- *; unfold result_of, events_of in *; cbn [fst snd] in *;
    [|discriminate].
  destruct (handle_query userinput db w1) as [[r w2] t2] eqn:Hq. cbn in Hd. subst r.
  apply handle_query_Return, handle_query_body_Return in Hq
    as (llm & tk & dialect & ae & result & out & _ & _ & -> & Hout & ->).
  exists (t1 ++ [ Ev_ChatOpenAI llm (Return tt); Ev_SQLDatabaseToolkit tk (Return tt);
                  Ev_dialect tk (Return dialect); Ev_create_sql_agent ae (Return tt) ]),
         ae, result, out.
  cbn [fst snd]. rewrite <- app_assoc. auto.
Qed.


(** C7.  The one scheduled job is the keep-alive with an interval of 999999
    seconds, while the comment above it says 10 seconds: the first firing
    comes 999999 seconds after the start and none within the first day,
    where the documented interval would give 8640. *)
Theorem keep_alive_interval_mismatch :
  List.map (fun j => (trigger j, seconds j)) scheduler = [("interval", 999999)] /\
  documented_interval_seconds = 10 /\
  Forall (fun j => seconds j <> documented_interval_seconds /\
                   fire_time j O = 999999 /\
                   runs_within j 86400 = 0)
         scheduler /\
  86400 / documented_interval_seconds = 8640.
Proof.
  repeat split; try reflexivity.
  constructor; [|constructor]. repeat split. discriminate.
Qed.

(** C9.  Start any operations in a fresh process (accessor calls,
    keep-alive firings, requests) and let their actions interleave in any
    order, the accessor being one action.  The threads are the functions of
    the module, cut into actions.  At every point of every interleaving at
    most one connection object has been constructed, and only by a
    successful opening; [_instance] holds it from then on; every connection
    any thread used is the object in [_instance]; a call of the accessor
    (directly or through [get_db_connection]) that returns gives the object
    in [_instance], which is the one every thread used, and the next call
    returns it again without opening anything; and the first call in a
    fresh process constructs the object as soon as the connection opens. *)
Theorem singleton_connection (ops : list operation) (schedule : list nat) (x : ext) :
  let w := (interleave schedule (fresh_process x) (List.map spawn ops)).1.1 in
  let t := (interleave schedule (fresh_process x) (List.map spawn ops)).1.2 in
  (forall w0 userinput,
      run keep_connection_alive_thread w0 = keep_connection_alive w0 /\
      run get_db_connection_thread w0 = get_db_connection w0 /\
      run (POST_query_thread userinput) w0 = POST_query userinput w0) /\
  (constructed w <= 1)%nat /\
  connections_opened t = constructed w /\
  ((_instance w = None /\ constructed w = O) \/
   (_instance w = Some the_connection /\ constructed w = 1%nat)) /\
  Forall (fun c => _instance w = Some c) (connections_used t) /\
  (forall db, result_of (get_instance w) = Return db ->
              _instance (world_of (get_instance w)) = Some db /\
              constructed (world_of (get_instance w)) = 1%nat /\
              Forall (fun c => c = db) (connections_used t) /\
              get_instance (world_of (get_instance w)) =
                (Return db, world_of (get_instance w), [])) /\
  (forall db, result_of (get_db_connection w) = Return db ->
              _instance (world_of (get_db_connection w)) = Some db /\
              constructed (world_of (get_db_connection w)) = 1%nat /\
              Forall (fun c => c = db) (connections_used t) /\
              get_db_connection (world_of (get_db_connection w)) =
                (Return db, world_of (get_db_connection w), [])) /\
  (forall u x',
      connect x = (Return u, x') ->
      get_instance (fresh_process x) =
        (Return the_connection,
         {| external := x'; _instance := Some the_connection; constructed := 1 |},
         [Ev_connect (Return tt)])).
Proof.
  assert (H0 : singleton_ok (fresh_process x)) by reflexivity.
  assert (Hpool : Forall (worker_ok (fresh_process x)) (List.map spawn ops)).
  { induction ops as [|op ops IH]; constructor; [apply spawn_ok | exact IH]. }
  destruct (interleave_ok schedule _ _ H0 Hpool) as [(Hs & Hc & Hu & _) _].
  cbn zeta. cbn [constructed fresh_process] in Hc.
  set (w := (interleave schedule (fresh_process x) (List.map spawn ops)).1.1) in *.
  set (t := (interleave schedule (fresh_process x) (List.map spawn ops)).1.2) in *.
  assert (Hget : forall db,
             result_of (get_instance w) = Return db ->
             _instance (world_of (get_instance w)) = Some db /\
             constructed (world_of (get_instance w)) = 1%nat /\
             Forall (fun c => c = db) (connections_used t) /\
             get_instance (world_of (get_instance w)) =
               (Return db, world_of (get_instance w), [])).
  { intros db Hdb. destruct (get_instance_step _ Hs) as [(Hs' & _) Hres].
    destruct (Hres db Hdb) as [-> Hi]. split; [exact Hi|]. split.
    - unfold singleton_ok in Hs'. rewrite Hi in Hs'. apply Hs'.
    - split.
      + eapply Forall_impl; [exact Hu|]. cbn. intros c [-> _]. reflexivity.
      + unfold get_instance at 1. rewrite Hi. reflexivity. }
  split; [|split; [|split; [|split; [|split; [|split; [|split]]]]]].
  - intros w0 userinput. split; [apply run_keep_connection_alive_thread|].
    split; [apply run_get_db_connection_thread | apply run_POST_query_thread].
  - unfold singleton_ok in Hs. destruct (_instance w); lia.
  - lia.
  - unfold singleton_ok in Hs. destruct (_instance w) as [db|]; [right | left; auto].
    destruct Hs as [-> Hs]. auto.
  - eapply Forall_impl; [exact Hu|]. cbn. intros c [-> Hi]. exact Hi.
  - exact Hget.
  - intros db. rewrite !get_db_connection_eq. apply Hget.
  - intros u x' Hopen. unfold get_instance. cbn. rewrite Hopen. reflexivity.
Qed.

(** C10.  When the dependency has to open the connection and opening it
    raises [b], the request raises [b] itself: [handle_query] never starts,
    nothing is logged, and unless [b] happens to be that very exception the
    outcome is not the fixed-detail 500. *)
Theorem connection_failure_not_converted
    (userinput : ModelInput) (w : World ext) (b : BaseException) (x : ext) :
  _instance w = None ->
  connect (external w) = (Raise b, x) ->
  POST_query userinput w =
    (Raise b,
     {| external := x; _instance := None; constructed := constructed w |},
     [Ev_connect (Raise b)]) /\
  log_of (events_of (POST_query userinput w)) = [] /\
  (b <> Exc (HTTPException 500 "An error occurred while processing the request.") ->
   result_of (POST_query userinput w) <>
     Raise (Exc (HTTPException 500 "An error occurred while processing the request."))).
Proof.
  intros Hi Hc.
  assert (Hg : get_instance w =
               (Raise b, {| external := x; _instance := None; constructed := constructed w |},
                [Ev_connect (Raise b)])).
  { unfold get_instance. rewrite Hi, Hc. reflexivity. }
  assert (Hp : POST_query userinput w =
               (Raise b, {| external := x; _instance := None; constructed := constructed w |},
                [Ev_connect (Raise b)])).
  { unfold POST_query. apply bind_Raise. rewrite get_db_connection_eq. exact Hg. }
  rewrite Hp. split; [reflexivity|]. split; [reflexivity|].
  intros Hb. cbn. congruence.
Qed.

End Claims.

(** C8.  Normalizing twice is normalizing once, for every string and every
    choice of the punctuation set. *)
Theorem normalize_idempotent (punctuation : ascii -> bool) (s : string) :
  normalize punctuation (normalize punctuation s) = normalize punctuation s.
Proof.
  unfold normalize. rewrite list_ascii_of_string_of_list_ascii. f_equal.
  set (l := List.map (fold_char punctuation) (list_ascii_of_string s)).
  assert (Hfix : Forall (fun c => fold_char punctuation c = c) l).
  { unfold l. induction (list_ascii_of_string s) as [|c l0 IH]; cbn; constructor;
      [apply fold_char_idempotent | exact IH]. }
  assert (Hjoin : Forall (fun c => fold_char punctuation c = c) (join (split l))).
  { apply join_keep; [apply fold_char_space | apply split_keep, Hfix]. }
  rewrite (map_fixed _ _ Hjoin), (split_join _ (split_words l)). reflexivity.
Qed.


(** * Concrete runs *)

Example normalize_punctuated :
  normalize named_punctuation "Vendor-Name, Inc." = "vendor name inc".
Proof. reflexivity. Qed.

Example normalize_plain :
  normalize named_punctuation "vendor name inc" = "vendor name inc".
Proof. reflexivity. Qed.

Example normalize_spaced :
  normalize named_punctuation "VENDOR   NAME INC" = "vendor name inc".
Proof. reflexivity. Qed.

(** A question with a limit of its own: the conversation handed over has
    the question, limit and all, as its second message. *)
Example top_5_vendors_conversation :
  handed_to_agent (events_of (POST_query (env := healthy) "show me the top 5 vendors" (fresh_process O))) =
    [from_messages [ SystemMessage prefix;
                     HumanMessage "userinput='show me the top 5 vendors'";
                     AIMessage suffix;
                     MessagesPlaceholder "agent_scratchpad" ]].
Proof. vm_compute. reflexivity. Qed.

(** A missing [output] key is a [KeyError] inside the [try] block, hence the
    fixed 500 as well. *)
Example missing_output_is_500 :
  result_of (POST_query (env := agent_mute) "how many invoices" (fresh_process O)) =
    Raise (Exc (HTTPException 500 "An error occurred while processing the request.")) /\
  log_of (events_of (POST_query (env := agent_mute) "how many invoices" (fresh_process O))) =
    [ {| levelname := ERROR; msg := "Error handling query:";
         exc_info := Some (Exc (KeyError "output")) |} ].
Proof. split; vm_compute; reflexivity. Qed.

(** [except Exception] lets an interpreter signal through, unlogged. *)
Example signal_passes_handle_query :
  result_of (handle_query (env := interrupted) "how many invoices" the_connection connected) =
    Raise (NonException "KeyboardInterrupt") /\
  log_of (events_of (handle_query (env := interrupted) "how many invoices" the_connection connected)) = [].
Proof. split; vm_compute; reflexivity. Qed.

(** Three firings fail to open the connection, the fourth opens it and
    pings; the ping that returned leaves no record.  A request afterwards
    is served on that connection. *)
Example keep_alive_recovers :
  List.map levelname
    (log_of (perform_all (env := db_down)
               [ Op_keep_connection_alive; Op_keep_connection_alive;
                 Op_keep_connection_alive; Op_keep_connection_alive ] (fresh_process O)).2) =
    [ERROR; ERROR; ERROR] /\
  commands_run
    (perform_all (env := db_down)
       [ Op_keep_connection_alive; Op_keep_connection_alive;
         Op_keep_connection_alive; Op_keep_connection_alive ] (fresh_process O)).2 =
    ["SELECT 1"] /\
  result_of (POST_query (env := db_down) "how many invoices"
               (perform_all (env := db_down)
                  [ Op_keep_connection_alive; Op_keep_connection_alive;
                    Op_keep_connection_alive; Op_keep_connection_alive ] (fresh_process O)).1) =
    Return {[ "response" := "42" ]}.
Proof. repeat split; vm_compute; reflexivity. Qed.

(** A keep-alive firing, two requests and a dependency resolution with
    their actions interleaved: one opening, one object, one ping, and both
    requests reach the agent on that object. *)
Example interleaved_requests :
  let r :=
    interleave
      [0; 1; 2; 1; 0; 2; 3; 1; 0; 2; 3; 3; 1; 2; 0; 1; 2; 3; 1; 2; 1; 2; 1; 2; 1; 2]%nat
      (fresh_process O)
      (List.map (spawn (env := healthy))
         [ Op_keep_connection_alive; Op_POST_query "how many invoices";
           Op_POST_query "show me the top 5 vendors"; Op_get_db_connection ]) in
  r.1.1 = {| external := 1%nat; _instance := Some the_connection; constructed := 1 |} /\
  connection_attempts r.1.2 = 1%nat /\
  commands_run r.1.2 = ["SELECT 1"] /\
  length (handed_to_agent r.1.2) = 2%nat.
Proof. cbv zeta. repeat split; vm_compute; reflexivity. Qed.


(** C1 as a guarantee about answers fails: nothing in the module counts or
    cuts rows.  An agent that answers with 31 rows gets them through, for
    the question with a limit of 5 and for the one with none. *)
Lemma cap_not_enforced :
  ~ capped (env := agent_ignores_limit) "show me the top 5 vendors" 5 /\
  ~ capped (env := agent_ignores_limit) "list the vendors" 30.
Proof.
  split; intros H.
  - specialize (H (fresh_process O) (markdown_table 31)).
    assert (Hrows : (data_rows (markdown_table 31) <= 5)%nat)
      by (apply H; vm_compute; reflexivity).
    vm_compute in Hrows. lia.
  - specialize (H (fresh_process O) (markdown_table 31)).
    assert (Hrows : (data_rows (markdown_table 31) <= 30)%nat)
      by (apply H; vm_compute; reflexivity).
    vm_compute in Hrows. lia.
Qed.

(** ** Witnesses *)

Lemma default_cap_carried_witness :
  handed_to_agent
    (events_of (POST_query (env := healthy) "show me the top 5 vendors" (fresh_process O))) =
    [from_messages
       (conversation (ModelInput_str (Collaborators := healthy) "show me the top 5 vendors"))].
Proof.
  apply (proj1 (proj2 (default_cap_carried (env := healthy)
                         "show me the top 5 vendors" (fresh_process O)))
               {[ "response" := "| Vendor | Invoices |" ]}).
  vm_compute. reflexivity.
Defined.

Lemma handle_query_generic_500_witness :
  result_of (handle_query (env := agent_down) "total per vendor" the_connection connected) =
    Raise (Exc (HTTPException 500 "An error occurred while processing the request.")) /\
  log_of (events_of (handle_query (env := agent_down) "total per vendor" the_connection connected)) =
    [ {| levelname := ERROR; msg := "Error handling query:";
         exc_info := Some (Exc (OtherException "ProgrammingError"
                                               "Invalid object name Common.Vw_Ai")) |} ].
Proof.
  erewrite (proj1 (handle_query_generic_500 (env := agent_down) _ _ _))
    by (vm_compute; reflexivity).
  split; vm_compute; reflexivity.
Defined.

Lemma response_is_agent_output_witness :
  exists t0 ae result out,
    events_of (POST_query (env := healthy) "show me the top 5 vendors" (fresh_process O)) =
      t0 ++ [Ev_invoke ae ("Now answer this query: " +:+
                           ModelInput_str (Collaborators := healthy) "show me the top 5 vendors")
                       (Return result)] /\
    result !! "output" = Some out /\
    ({[ "response" := "| Vendor | Invoices |" ]} : gmap string string) = {[ "response" := out ]}.
Proof.
  apply (response_is_agent_output (env := healthy) "show me the top 5 vendors" (fresh_process O)).
  vm_compute. reflexivity.
Defined.

Lemma conversation_order_witness :
  exists p,
    handed_to_agent
      (events_of (POST_query (env := healthy) "show me the top 5 vendors" (fresh_process O))) = [p].
Proof.
  apply (proj1 (proj2 (conversation_order (env := healthy) "show me the top 5 vendors" (fresh_process O)))
               {[ "response" := "| Vendor | Invoices |" ]}).
  vm_compute. reflexivity.
Defined.


Lemma singleton_connection_witness :
  (constructed
     (interleave
        [0; 1; 2; 1; 0; 2; 3; 1; 0; 2; 3; 3; 1; 2; 0; 1; 2; 3; 1; 2; 1; 2; 1; 2; 1; 2]%nat
        (fresh_process O)
        (List.map (spawn (env := healthy))
           [ Op_keep_connection_alive; Op_POST_query "how many invoices";
             Op_POST_query "show me the top 5 vendors"; Op_get_db_connection ])).1.1 <= 1)%nat.
Proof.
  apply (singleton_connection (env := healthy)).
Defined.

Lemma connection_failure_not_converted_witness :
  POST_query (env := db_down) "how many invoices" (fresh_process O) =
    (Raise (Exc OperationalError),
     {| external := 1%nat; _instance := None; constructed := O |},
     [Ev_connect (Raise (Exc OperationalError))]).
Proof.
  apply (connection_failure_not_converted (env := db_down) "how many invoices" (fresh_process O));
    reflexivity.
Defined.


(** * Further properties of the handlers *)

Section RunShapes.
Context {ext ModelInput : Type} {env : Collaborators ext ModelInput}.

(** Every run of [handle_query] has one of the four shapes. *)
Lemma handle_query_runs (userinput : ModelInput) (db : SQLDatabase) (w : World ext) :
  handle_query_run userinput db
    (result_of (handle_query userinput db w))
    (events_of (handle_query userinput db w)).
Proof.
  unfold handle_query, try_except_Exception, handle_query_body, bind, call,
    logging_error, raise, getitem, ret, result_of, events_of.
  cbn.
  destruct (ChatOpenAI_init _ (external w)) as [[[]|b] x1]; cbn.
  2: { destruct b as [e|cls]; cbn.
       - apply (run_failed _ _ e [_]). constructor.
       - apply run_interrupted. constructor. }
  destruct (SQLDatabaseToolkit_init _ x1) as [[[]|b] x2]; cbn.
  2: { destruct b as [e|cls]; cbn.
       - apply (run_failed _ _ e [_; _]). constructor.
       - apply run_interrupted. constructor. }
  destruct (SQLDatabaseToolkit_dialect _ x2) as [[dialect|b] x3]; cbn.
  2: { destruct b as [e|cls]; cbn.
       - apply (run_failed _ _ e [_; _; _]). constructor.
       - apply run_interrupted. constructor. }
  destruct (create_sql_agent_init _ x3) as [[[]|b] x4]; cbn.
  2: { destruct b as [e|cls]; cbn.
       - apply (run_failed _ _ e [_; _; _; _]). apply stop_create_sql_agent.
       - apply run_interrupted. apply stop_create_sql_agent. }
  destruct (AgentExecutor_invoke _ _ x4) as [[result|b] x5]; cbn.
  2: { destruct b as [e|cls]; cbn.
       - apply (run_failed _ _ e [_; _; _; _; _]). apply (stop_invoke _ _ _ dialect).
       - apply run_interrupted. apply (stop_invoke _ _ _ dialect). }
  destruct (result !! "output") as [out|] eqn:Hout; cbn.
  - apply (run_answered _ _ dialect result out Hout).
  - apply (run_no_output _ _ dialect result Hout).
Qed.

(** Case analysis on a run of [handle_query]: one goal per shape, with the
    emitted list spelled out. *)
Ltac run_cases userinput db w :=
  let Hrun := fresh "Hrun" in
  pose proof (handle_query_runs userinput db w) as Hrun;
  unfold result_of, events_of in *;
  destruct (handle_query userinput db w) as [[? ?] ?];
  cbn [fst snd] in *;
  inversion Hrun; subst;
  try match goal with H : stopped_at _ _ _ _ |- _ => inversion H; subst end;
  unfold setup_calls in *; cbn [app] in *.

Ltac pick_event H :=
  cbn [In] in H;
  repeat (destruct H as [H | H]; [try (subst; cbn in *; discriminate) | ]);
  try contradiction.

(** X1.  Whichever collaborator call of [handle_query] raises an [Exception]
    [e] (the LLM client, the toolkit, the dialect, the agent's creation or
    its invocation), the request raises the fixed 500, the log of the run is
    the one ERROR record carrying [e], and that record directly follows the
    failed call: no collaborator is called after a failure. *)
Theorem collaborator_failure_is_500
    (userinput : ModelInput) (db : SQLDatabase) (w : World ext)
    (ev : event) (e : Exception) :
  In ev (events_of (handle_query userinput db w)) ->
  raised_by ev = Some (Exc e) ->
  result_of (handle_query userinput db w) = Raise (Exc generic_500) /\
  log_of (events_of (handle_query userinput db w)) = [query_error_record e] /\
  exists before,
    events_of (handle_query userinput db w) =
      before ++ [ev; Ev_log (query_error_record e)] /\
    Forall (fun ev' => raised_by ev' = None) before.
Proof.
  intros Hin Hraise. run_cases userinput db w; pick_event Hin.
  all: subst ev; cbn in Hraise; injection Hraise as <-; repeat split; eexists.
  all: split;
    [ first [ exact (eq_refl : _ = [] ++ _)
            | exact (eq_refl : _ = [_] ++ _)
            | exact (eq_refl : _ = [_; _] ++ _)
            | exact (eq_refl : _ = [_; _; _] ++ _)
            | exact (eq_refl : _ = [_; _; _; _] ++ _) ]
    | repeat constructor ].
Qed.

(** X2.  A collaborator call of [handle_query] that raises something that
    is not an [Exception] instance ends the run at once: the request raises
    that very signal, nothing is logged, and the failed call is the last
    action. *)
Theorem signal_ends_handle_query
    (userinput : ModelInput) (db : SQLDatabase) (w : World ext)
    (ev : event) (cls : string) :
  In ev (events_of (handle_query userinput db w)) ->
  raised_by ev = Some (NonException cls) ->
  result_of (handle_query userinput db w) = Raise (NonException cls) /\
  log_of (events_of (handle_query userinput db w)) = [] /\
  exists before,
    events_of (handle_query userinput db w) = before ++ [ev] /\
    Forall (fun ev' => raised_by ev' = None) before.
Proof.
  intros Hin Hraise. run_cases userinput db w; pick_event Hin.
  all: subst ev; cbn in Hraise; injection Hraise as <-; repeat split; eexists.
  all: split;
    [ first [ exact (eq_refl : _ = [] ++ _)
            | exact (eq_refl : _ = [_] ++ _)
            | exact (eq_refl : _ = [_; _] ++ _)
            | exact (eq_refl : _ = [_; _; _] ++ _)
            | exact (eq_refl : _ = [_; _; _; _] ++ _) ]
    | repeat constructor ].
Qed.

(** X3.  What the request makes of an agent that returned: with an [output]
    entry the request returns the one-key dictionary around it and logs
    nothing; without one, the lookup fails inside the [try] block, so the
    request raises the fixed 500 and logs [KeyError] for [output]. *)
Theorem agent_result_decides
    (userinput : ModelInput) (db : SQLDatabase) (w : World ext)
    (ae : AgentExecutor) (input : string) (result : gmap string string) :
  In (Ev_invoke ae input (Return result)) (events_of (handle_query userinput db w)) ->
  match result !! "output" with
  | Some out =>
      result_of (handle_query userinput db w) = Return {[ "response" := out ]} /\
      log_of (events_of (handle_query userinput db w)) = []
  | None =>
      result_of (handle_query userinput db w) = Raise (Exc generic_500) /\
      log_of (events_of (handle_query userinput db w)) =
        [query_error_record (KeyError "output")]
  end.
Proof.
  intros Hin. run_cases userinput db w; pick_event Hin.
  all: injection Hin as <- <- <-.
  all: match goal with H : _ !! "output" = _ |- _ => rewrite H end.
  all: split; reflexivity.
Qed.

(** X4.  The agent is invoked at most once per request, by the executor
    that was just created and on [Now answer this query:] followed by the
    rendered question, and only after the LLM client, the toolkit, the
    dialect and the executor were obtained, in that order; after the
    invocation nothing but the handler's log record follows. *)
Theorem invoke_comes_last
    (userinput : ModelInput) (db : SQLDatabase) (w : World ext)
    (ae : AgentExecutor) (input : string) (r : outcome (gmap string string)) :
  In (Ev_invoke ae input r) (events_of (handle_query userinput db w)) ->
  ae = request_agent userinput db /\
  input = request_input userinput /\
  exists dialect rest,
    events_of (handle_query userinput db w) =
      setup_calls userinput db dialect ++ Ev_invoke ae input r :: rest /\
    (rest = [] \/ exists e, rest = [Ev_log (query_error_record e)]).
Proof.
  intros Hin. run_cases userinput db w; pick_event Hin.
  all: injection Hin as <- <- <-.
  all: split; [reflexivity|]; split; [reflexivity|].
  all: eexists; eexists; split; [reflexivity|]; eauto.
Qed.

(** X5.  A run of [handle_query] logs at most one record, and logs one
    exactly when it raises the fixed 500: a request that returns, or that is
    cut short by a signal, leaves no record. *)
Theorem handle_query_logs_iff_500
    (userinput : ModelInput) (db : SQLDatabase) (w : World ext) :
  (result_of (handle_query userinput db w) = Raise (Exc generic_500) /\
   exists e, log_of (events_of (handle_query userinput db w)) = [query_error_record e]) \/
  (result_of (handle_query userinput db w) <> Raise (Exc generic_500) /\
   log_of (events_of (handle_query userinput db w)) = []).
Proof.
  run_cases userinput db w.
  all: first [ left; split; [reflexivity | eexists; reflexivity]
             | right; split; [discriminate | reflexivity] ].
Qed.

End RunShapes.

Section KeeperRuns.
Context {ext ModelInput : Type} {env : Collaborators ext ModelInput}.

(** Every firing of the keep-alive job has one of the five shapes. *)
Lemma keep_connection_alive_runs (w : World ext) :
  keep_alive_run
    (result_of (keep_connection_alive w))
    (events_of (keep_connection_alive w)).
Proof.
  unfold keep_connection_alive, keep_connection_alive_body.
  destruct (get_instance_cases w)
    as [(db & Hi & Hg) | [(u & x & Hi & _ & Hg) | ([e|cls] & x & Hi & _ & Hg)]].
  - rewrite (try_bind_Return _ _ _ _ _ _ _ Hg).
    unfold try_except_Exception, bind, call, logging_info, logging_error, result_of, events_of.
    destruct (SQLDatabase_run db "SELECT 1" (external w)) as [[v|[e|cls]] x]; cbn.
    + apply (ka_pinged [] db v). auto.
    + apply (ka_ping_failed [] db e). auto.
    + apply (ka_ping_interrupted [] db cls). auto.
  - rewrite (try_bind_Return _ _ _ _ _ _ _ Hg).
    unfold try_except_Exception, bind, call, logging_info, logging_error, result_of, events_of.
    cbn [external].
    destruct (SQLDatabase_run {| db_id := constructed w |} "SELECT 1" x) as [[v|[e|cls]] x']; cbn.
    + apply (ka_pinged [_] _ v). auto.
    + apply (ka_ping_failed [_] _ e). auto.
    + apply (ka_ping_interrupted [_] _ cls). auto.
  - rewrite (try_bind_Raise _ _ _ _ _ _ _ Hg). cbn. apply ka_connect_failed.
  - rewrite (try_bind_signal _ _ _ _ _ _ _ Hg). cbn. apply ka_connect_interrupted.
Qed.

Ltac firing_cases w :=
  let Hrun := fresh "Hrun" in
  pose proof (keep_connection_alive_runs w) as Hrun;
  unfold result_of, events_of in *;
  destruct (keep_connection_alive w) as [[? ?] ?];
  cbn [fst snd] in *;
  inversion Hrun; subst;
  repeat match goal with
         | H : _ = [] \/ _ = [_] |- _ => destruct H; subst
         end;
  cbn [app] in *.

Ltac pick_firing_event H :=
  cbn [In] in H;
  repeat (destruct H as [H | H]; [try (subst; cbn in *; discriminate) | ]);
  try contradiction.

(** X6.  Whichever step of a keep-alive firing raises an [Exception] [e]
    (opening the connection or the ping), the firing still returns, its log
    is the one ERROR record carrying [e], and that record directly follows
    the failed step. *)
Theorem keep_alive_failure_logged (w : World ext) (ev : event) (e : Exception) :
  In ev (events_of (keep_connection_alive w)) ->
  raised_by ev = Some (Exc e) ->
  result_of (keep_connection_alive w) = Return tt /\
  log_of (events_of (keep_connection_alive w)) = [keep_alive_error_record e] /\
  exists before,
    events_of (keep_connection_alive w) =
      before ++ [ev; Ev_log (keep_alive_error_record e)] /\
    Forall (fun ev' => raised_by ev' = None) before.
Proof.
  intros Hin Hraise. firing_cases w; pick_firing_event Hin.
  all: subst ev; cbn in Hraise; injection Hraise as <-; repeat split; eexists.
  all: split;
    [ first [ exact (eq_refl : _ = [] ++ _) | exact (eq_refl : _ = [_] ++ _) ]
    | repeat constructor ].
Qed.

(** X7.  A firing pings at most once, and only with an open connection: if
    opening the connection raised, no command is sent.  [logging] is never
    configured, so the INFO call after a ping that returned creates no
    record: a firing returns with an empty log exactly when its ping
    returned. *)
Theorem successful_ping_is_silent (w : World ext) :
  (length (commands_run (events_of (keep_connection_alive w))) <= 1)%nat /\
  (forall b, In (Ev_connect (Raise b)) (events_of (keep_connection_alive w)) ->
             commands_run (events_of (keep_connection_alive w)) = []) /\
  ((result_of (keep_connection_alive w) = Return tt /\
    log_of (events_of (keep_connection_alive w)) = []) <->
   exists db v, In (Ev_run db "SELECT 1" (Return v)) (events_of (keep_connection_alive w))).
Proof.
  firing_cases w.
  all: split; [cbn; lia|]; split;
    [intros b Hin; pick_firing_event Hin; reflexivity|]; split.
  all: try (intros _; do 2 eexists; cbn; eauto; fail).
  all: try (intros [_ Hlog]; cbn in Hlog; discriminate).
  all: try (intros [Hres _]; discriminate).
  all: try (intros (db' & v' & Hin); pick_firing_event Hin; cbn; auto; fail).
Qed.

End KeeperRuns.

Section RequestFacts.
Context {ext ModelInput : Type} {env : Collaborators ext ModelInput}.

Lemma connection_attempts_app (t1 t2 : list event) :
  connection_attempts (t1 ++ t2) = (connection_attempts t1 + connection_attempts t2)%nat.
Proof.
  induction t1 as [|ev t1 IH]; [reflexivity|].
  destruct ev; cbn; rewrite IH; reflexivity.
Qed.

Lemma orchestration_event_quiet (userinput : ModelInput) (db : SQLDatabase) (t : list event) :
  Forall (orchestration_event userinput db) t ->
  connection_attempts t = O /\ commands_run t = [].
Proof.
  induction 1 as [|ev t Hev _ [IH1 IH2]]; [split; reflexivity|].
  destruct ev; cbn in *; try contradiction; auto.
Qed.

Lemma keep_alive_event_quiet (db : SQLDatabase) (t : list event) :
  Forall (keep_alive_event db) t -> connection_attempts t = O.
Proof.
  induction 1 as [|ev t Hev _ IH]; [reflexivity|].
  destruct ev; cbn in *; try contradiction; auto.
Qed.

(** What [handle_query] leaves alone and what it uses. *)
Lemma handle_query_quiet
    (userinput : ModelInput) (db : SQLDatabase) (w : World ext) :
  _instance (world_of (handle_query userinput db w)) = _instance w /\
  constructed (world_of (handle_query userinput db w)) = constructed w /\
  connection_attempts (events_of (handle_query userinput db w)) = O /\
  commands_run (events_of (handle_query userinput db w)) = [] /\
  Forall (fun c => c = db) (connections_used (events_of (handle_query userinput db w))).
Proof.
  destruct (handle_query_respects userinput db w) as (Hi & Hc & Hev).
  destruct (orchestration_event_quiet _ _ _ Hev) as [Ha Hr].
  destruct (orchestration_event_uses _ _ _ Hev) as (Hu & _ & _).
  auto.
Qed.

(** X8.  [handle_query] works only through what it is given: it leaves the
    singleton as it found it, never tries to open a connection, sends no
    command through [db.run] itself, and every collaborator that gets a
    connection gets the argument [db]. *)
Theorem handle_query_footprint
    (userinput : ModelInput) (db : SQLDatabase) (w : World ext) :
  _instance (world_of (handle_query userinput db w)) = _instance w /\
  constructed (world_of (handle_query userinput db w)) = constructed w /\
  connection_attempts (events_of (handle_query userinput db w)) = O /\
  commands_run (events_of (handle_query userinput db w)) = [] /\
  Forall (fun c => c = db) (connections_used (events_of (handle_query userinput db w))).
Proof. apply handle_query_quiet. Qed.

(** X9.  Whatever state a request starts from, the connection its toolkit
    and its agent work on is the one [_instance] holds when the request is
    over. *)
Theorem request_uses_instance (userinput : ModelInput) (w : World ext) :
  Forall (fun c => _instance (world_of (POST_query userinput w)) = Some c)
         (connections_used (events_of (POST_query userinput w))).
Proof.
  destruct (POST_query_run userinput w) as [(db & w1 & t1 & Hg & ->) | (b & w1 & t1 & Hg & ->)];
    unfold world_of, events_of; cbn [fst snd].
  - destruct (handle_query_quiet userinput db w1) as (Hi & _ & _ & _ & Hu).
    unfold world_of, events_of in Hi, Hu. rewrite Hi, connections_used_app.
    assert (Hw1 : _instance w1 = Some db /\ connections_used t1 = []).
    { destruct (get_instance_cases w)
        as [(db' & Hi' & H) | [(u & x & Hi' & _ & H) | (b & x & Hi' & _ & H)]];
        rewrite H in Hg; try discriminate; injection Hg as Hdb Hw Ht; subst; cbn; auto. }
    destruct Hw1 as [-> ->]. cbn [app].
    eapply Forall_impl; [exact Hu|]. cbn. intros c ->. reflexivity.
  - destruct (get_instance_cases w)
      as [(db' & Hi' & H) | [(u & x & Hi' & _ & H) | (b' & x & Hi' & _ & H)]];
      rewrite H in Hg; try discriminate; injection Hg as Hdb Hw Ht; subst; cbn; constructor.
Qed.

(** X10.  The only [Exception]s a request can raise are the fixed 500 and
    whatever opening the connection raised; in the second case the failed
    opening is all the request did, and there is still no connection. *)
Theorem request_exceptions (userinput : ModelInput) (w : World ext) (e : Exception) :
  result_of (POST_query userinput w) = Raise (Exc e) ->
  e = generic_500 \/
  (events_of (POST_query userinput w) = [Ev_connect (Raise (Exc e))] /\
   _instance (world_of (POST_query userinput w)) = None).
Proof.
  destruct (POST_query_run userinput w) as [(db & w1 & t1 & Hg & ->) | (b & w1 & t1 & Hg & ->)];
    unfold result_of, world_of, events_of; cbn [fst snd]; intros Hr.
  - left. pose proof (handle_query_runs userinput db w1) as Hrun.
    unfold result_of in Hrun. rewrite Hr in Hrun. inversion Hrun; reflexivity.
  - right. injection Hr as ->.
    destruct (get_instance_cases w)
      as [(db' & Hi' & H) | [(u & x & Hi' & _ & H) | (b' & x & Hi' & _ & H)]];
      rewrite H in Hg; try discriminate.
    injection Hg as -> <- <-. auto.
Qed.

Lemma perform_connected (op : operation) (w : World ext) (db : SQLDatabase) :
  _instance w = Some db ->
  _instance (perform op w).1 = Some db /\
  constructed (perform op w).1 = constructed w /\
  connection_attempts (perform op w).2 = O.
Proof.
  intros Hi.
  assert (Hg : get_instance w = (Return db, w, [])).
  { unfold get_instance. rewrite Hi. reflexivity. }
  destruct op; cbn [perform fst snd].
  - rewrite Hg. cbn. auto.
  - rewrite get_db_connection_eq, Hg. cbn. auto.
  - unfold keep_connection_alive, keep_connection_alive_body.
    rewrite (try_bind_Return _ _ _ _ _ _ _ Hg). unfold world_of, events_of. cbn [fst snd app].
    assert (Hrest : respects (keep_alive_event db)
              (try_except_Exception
                 (call (SQLDatabase_run db "SELECT 1") (Ev_run db "SELECT 1") ;;
                  logging_info "Database connection kept alive.")
                 (fun e => logging_error "Error in keep_connection_alive:" e))).
    { apply respects_try; [apply keep_alive_rest_respects|].
      intros e. apply respects_logging_error. cbn. auto. }
    destruct (Hrest w) as (H1 & H2 & H3). unfold world_of, events_of in *.
    rewrite H1, H2, (keep_alive_event_quiet db _ H3). auto.
  - destruct (POST_query_run userinput w)
      as [(db' & w1 & t1 & Hg' & ->) | (b & w1 & t1 & Hg' & ->)];
      rewrite Hg in Hg'; [|discriminate].
    injection Hg' as <- <- <-. unfold world_of, events_of. cbn [fst snd app].
    destruct (handle_query_quiet userinput db w) as (H1 & H2 & H3 & _).
    unfold world_of, events_of in *. rewrite H1, H2, H3. auto.
Qed.

(** X11.  Once [_instance] holds a connection, nothing in this module
    replaces it: over any history of accessor calls, keep-alive firings and
    requests, failed ones included, [_instance] keeps that object, nothing
    is constructed, and no attempt to open a connection is made. *)
Theorem connection_is_never_replaced
    (ops : list operation) (w : World ext) (db : SQLDatabase) :
  _instance w = Some db ->
  _instance (perform_all ops w).1 = Some db /\
  constructed (perform_all ops w).1 = constructed w /\
  connection_attempts (perform_all ops w).2 = O.
Proof.
  revert w. induction ops as [|op ops IH]; intros w Hi; [cbn; auto|].
  cbn [perform_all]. destruct (perform_connected op w db Hi) as (H1 & H2 & H3).
  destruct (perform op w) as [w1 t1]. cbn [fst snd] in *.
  destruct (IH w1 H1) as (H4 & H5 & H6).
  destruct (perform_all ops w1) as [w2 t2]. cbn [fst snd] in *.
  rewrite connection_attempts_app, H3, H6. repeat split; congruence.
Qed.

(** X12.  While there is no connection, every operation (an accessor call,
    a keep-alive firing, a request) tries exactly once to open one: a failed
    opening is not retried inside the operation. *)
Theorem one_attempt_when_disconnected (op : operation) (w : World ext) :
  _instance w = None ->
  connection_attempts (perform op w).2 = 1%nat.
Proof.
  intros Hi.
  assert (Hg : (exists db w1, get_instance w = (Return db, w1, [Ev_connect (Return tt)]) /\
                              _instance w1 = Some db) \/
               (exists b w1, get_instance w = (Raise b, w1, [Ev_connect (Raise b)]))).
  { destruct (get_instance_cases w)
      as [(db' & Hi' & H) | [(u & x & Hi' & _ & H) | (b' & x & Hi' & _ & H)]];
      [congruence | left | right]; rewrite H; eauto. }
  destruct op; cbn [perform fst snd].
  - destruct Hg as [(db & w1 & -> & _) | (b & w1 & ->)]; reflexivity.
  - rewrite get_db_connection_eq.
    destruct Hg as [(db & w1 & -> & _) | (b & w1 & ->)]; reflexivity.
  - unfold keep_connection_alive, keep_connection_alive_body.
    destruct Hg as [(db & w1 & Hg & _) | ([e|cls] & w1 & Hg)].
    + rewrite (try_bind_Return _ _ _ _ _ _ _ Hg). unfold events_of. cbn [fst snd].
      assert (Hrest : respects (keep_alive_event db)
                (try_except_Exception
                   (call (SQLDatabase_run db "SELECT 1") (Ev_run db "SELECT 1") ;;
                    logging_info "Database connection kept alive.")
                   (fun e => logging_error "Error in keep_connection_alive:" e))).
      { apply respects_try; [apply keep_alive_rest_respects|].
        intros e. apply respects_logging_error. cbn. auto. }
      destruct (Hrest w1) as (_ & _ & H3). unfold events_of in H3.
      rewrite connection_attempts_app, (keep_alive_event_quiet db _ H3). reflexivity.
    + rewrite (try_bind_Raise _ _ _ _ _ _ _ Hg). reflexivity.
    + rewrite (try_bind_signal _ _ _ _ _ _ _ Hg). reflexivity.
  - destruct (POST_query_run userinput w)
      as [(db' & w1' & t1 & Hg' & ->) | (b & w1' & t1 & Hg' & ->)];
      unfold events_of; cbn [fst snd].
    + destruct Hg as [(db & w1 & Hg & _) | (b & w1 & Hg)]; rewrite Hg in Hg'; [|discriminate].
      injection Hg' as <- <- <-.
      destruct (handle_query_quiet userinput db w1) as (_ & _ & H3 & _).
      unfold events_of in H3. rewrite connection_attempts_app, H3. reflexivity.
    + destruct Hg as [(db & w1 & Hg & _) | (b' & w1 & Hg)]; rewrite Hg in Hg'; [discriminate|].
      injection Hg' as <- <- <-. reflexivity.
Qed.

(** X13.  A keep-alive firing, failed or not, leaves a connected process
    ready for requests: the next request resolves its dependency without
    opening anything and is exactly [handle_query] on the same connection. *)
Theorem request_after_firing
    (userinput : ModelInput) (w : World ext) (db : SQLDatabase) :
  _instance w = Some db ->
  POST_query userinput (world_of (keep_connection_alive w)) =
    handle_query userinput db (world_of (keep_connection_alive w)).
Proof.
  intros Hi.
  destruct (perform_connected Op_keep_connection_alive w db Hi) as (Hi' & _ & _).
  cbn [perform fst] in Hi'.
  set (w' := world_of (keep_connection_alive w)) in *.
  assert (Hg : get_db_connection w' = (Return db, w', [])).
  { rewrite get_db_connection_eq. unfold get_instance. rewrite Hi'. reflexivity. }
  unfold POST_query. rewrite (bind_Return _ _ _ _ _ _ Hg).
  destruct (handle_query userinput db w') as [[r w2] t2]. reflexivity.
Qed.

End RequestFacts.

(** ** Witnesses of the further properties *)

Lemma collaborator_failure_is_500_witness :
  result_of (handle_query (env := llm_rejected) "total per vendor" the_connection connected) =
    Raise (Exc generic_500) /\
  log_of (events_of (handle_query (env := llm_rejected) "total per vendor" the_connection connected)) =
    [query_error_record (OtherException "AuthenticationError" "Incorrect API key provided")].
Proof.
  destruct (collaborator_failure_is_500 (env := llm_rejected)
              "total per vendor" the_connection connected
              (Ev_ChatOpenAI (request_llm (env := llm_rejected))
                 (Raise (Exc (OtherException "AuthenticationError"
                                             "Incorrect API key provided"))))
              (OtherException "AuthenticationError" "Incorrect API key provided"))
    as (Hr & Hl & _).
  - left. reflexivity.
  - reflexivity.
  - split; assumption.
Defined.

Lemma signal_ends_handle_query_witness :
  result_of (handle_query (env := interrupted) "total per vendor" the_connection connected) =
    Raise (NonException "KeyboardInterrupt") /\
  log_of (events_of (handle_query (env := interrupted) "total per vendor" the_connection connected)) = [].
Proof.
  destruct (signal_ends_handle_query (env := interrupted)
              "total per vendor" the_connection connected
              (Ev_ChatOpenAI (request_llm (env := interrupted))
                 (Raise (NonException "KeyboardInterrupt")))
              "KeyboardInterrupt")
    as (Hr & Hl & _).
  - left. reflexivity.
  - reflexivity.
  - split; assumption.
Defined.

Lemma agent_result_decides_witness :
  result_of (handle_query (env := agent_mute) "how many invoices" the_connection connected) =
    Raise (Exc generic_500) /\
  log_of (events_of (handle_query (env := agent_mute) "how many invoices" the_connection connected)) =
    [query_error_record (KeyError "output")].
Proof.
  pose proof (agent_result_decides (env := agent_mute) "how many invoices" the_connection
                connected
                (request_agent (env := agent_mute) "how many invoices" the_connection)
                (request_input (env := agent_mute) "how many invoices")
                {[ "input" := "q" ]}) as H.
  assert (Hnone : ({[ "input" := "q" ]} : gmap string string) !! "output" = None)
    by (vm_compute; reflexivity).
  rewrite Hnone in H. apply H.
  vm_compute. do 4 right. left. reflexivity.
Defined.

Lemma invoke_comes_last_witness :
  exists dialect rest,
    events_of (handle_query (env := healthy) "show me the top 5 vendors" the_connection connected) =
      setup_calls (env := healthy) "show me the top 5 vendors" the_connection dialect ++
      Ev_invoke (request_agent (env := healthy) "show me the top 5 vendors" the_connection)
                (request_input (env := healthy) "show me the top 5 vendors")
                (Return {[ "input" := "Now answer this query: userinput='show me the top 5 vendors'";
                           "output" := "| Vendor | Invoices |" ]}) :: rest /\
    (rest = [] \/ exists e, rest = [Ev_log (query_error_record e)]).
Proof.
  apply (invoke_comes_last (env := healthy)).
  vm_compute. do 4 right. left. reflexivity.
Defined.

Lemma keep_alive_failure_logged_witness :
  result_of (keep_connection_alive (env := db_down) (fresh_process O)) = Return tt /\
  log_of (events_of (keep_connection_alive (env := db_down) (fresh_process O))) =
    [keep_alive_error_record OperationalError].
Proof.
  destruct (keep_alive_failure_logged (env := db_down) (fresh_process O)
              (Ev_connect (Raise (Exc OperationalError))) OperationalError)
    as (Hr & Hl & _).
  - left. reflexivity.
  - reflexivity.
  - split; assumption.
Defined.

Lemma request_exceptions_witness :
  OperationalError = generic_500 \/
  (events_of (POST_query (env := db_down) "how many invoices" (fresh_process O)) =
     [Ev_connect (Raise (Exc OperationalError))] /\
   _instance (world_of (POST_query (env := db_down) "how many invoices" (fresh_process O))) = None).
Proof.
  apply (request_exceptions (env := db_down)). reflexivity.
Defined.

Lemma connection_is_never_replaced_witness :
  _instance
    (perform_all (env := ping_fails)
       [ Op_keep_connection_alive; Op_POST_query "how many invoices";
         Op_keep_connection_alive; Op_get_instance ] connected).1 = Some the_connection /\
  constructed
    (perform_all (env := ping_fails)
       [ Op_keep_connection_alive; Op_POST_query "how many invoices";
         Op_keep_connection_alive; Op_get_instance ] connected).1 = 1%nat /\
  connection_attempts
    (perform_all (env := ping_fails)
       [ Op_keep_connection_alive; Op_POST_query "how many invoices";
         Op_keep_connection_alive; Op_get_instance ] connected).2 = O.
Proof.
  apply (connection_is_never_replaced (env := ping_fails)). reflexivity.
Defined.

Lemma one_attempt_when_disconnected_witness :
  connection_attempts
    (perform (env := db_down) (Op_POST_query "how many invoices") (fresh_process O)).2 = 1%nat.
Proof.
  apply (one_attempt_when_disconnected (env := db_down)). reflexivity.
Defined.

Lemma request_after_firing_witness :
  POST_query (env := ping_fails) "how many invoices"
    (world_of (keep_connection_alive (env := ping_fails) connected)) =
  handle_query (env := ping_fails) "how many invoices" the_connection
    (world_of (keep_connection_alive (env := ping_fails) connected)).
Proof.
  apply (request_after_firing (env := ping_fails)). reflexivity.
Defined.
